(** * js-ipfs: bootstrap reset and the DHT resources of the HTTP server

    A shallow embedding of

    - [createReset] / [reset] (ipfs-core, bootstrap reset), and
    - [packages/ipfs-http-server/src/api/resources/dht.js]

    JavaScript objects are finite maps from property names to values,
    exceptions are an explicit [Throw] result, calls into the repository and
    into the DHT engine are threaded through an explicit world that also
    records every call made, the way a stub does, and async iterables are
    state machines with a [next] operation. *)

From Stdlib Require Import ZArith Ascii String List Lia.
From stdpp Require Import base option list gmap strings.

Local Open Scope string_scope.
Local Open Scope Z_scope.
Local Open Scope list_scope.
Local Set Warnings "-register-all".

(** ** JavaScript values *)

Module Js.

(** JSON-like values; [VUndefined] is what reading an absent property
    gives.  [VBuf] is a [Buffer] holding the given bytes and [VCid] a [CID]
    instance, named by its canonical string form. *)
Inductive Value : Type :=
| VUndefined
| VNull
| VBool (b : bool)
| VNum (n : Z)
| VStr (s : string)
| VBuf (bytes : string)
| VCid (cid : string)
| VArr (items : list Value)
| VObj (props : gmap string Value).

(** [o.k] for an object held as a property map. *)
Definition get (o : gmap string Value) (k : string) : Value :=
  default VUndefined (o !! k).

(** [o.k = v], on a copy of the property map. *)
Definition set (o : gmap string Value) (k : string) (v : Value)
  : gmap string Value := <[k := v]> o.

(** An [Error] instance: [name], [message] and the optional [code] the
    engine attaches. *)
Record Error : Type := mkError {
  name : string;
  message : string;
  code : option string
}.

(** [Error.prototype.toString]. *)
Definition Error_toString (e : Error) : string :=
  if decide (message e = "") then name e
  else if decide (name e = "") then message e
  else name e +:+ ": " +:+ message e.

Definition TypeError (msg : string) : Error :=
  {| name := "TypeError"; message := msg; code := None |}.

(** The outcome of a call: a value, or a thrown [E]. *)
Inductive Result (E A : Type) : Type :=
| Ok (a : A)
| Throw (e : E).
Arguments Ok {E A} a.
Arguments Throw {E A} e.

Definition bindR {E A B} (r : Result E A) (k : A -> Result E B)
  : Result E B :=
  match r with
  | Ok a => k a
  | Throw e => Throw e
  end.

(** [xs.map(f)] where [f] may throw: elements are visited left to right
    and the first exception aborts the map. *)
Fixpoint array_map {E A B} (f : A -> Result E B) (xs : list A)
  : Result E (list B) :=
  match xs with
  | [] => Ok []
  | x :: rest =>
      bindR (f x) (fun y =>
      bindR (array_map f rest) (fun ys => Ok (y :: ys)))
  end.

(** [v.map(f)] on an arbitrary value: only arrays have [map]. *)
Definition value_map {B} (f : Value -> Result Error B) (v : Value)
  : Result Error (list B) :=
  match v with
  | VArr items => array_map f items
  | _ => Throw (TypeError "map is not a function")
  end.

End Js.

Import Js.

(** ** Calls against a stateful collaborator

    [M W E A] is a computation that reads and updates a world [W] and either
    returns an [A] or throws an [E]. *)

Definition M (W E A : Type) : Type := W -> Result E A * W.

Definition ret {W E A} (a : A) : M W E A := fun w => (Ok a, w).

Definition throw {W E A} (e : E) : M W E A := fun w => (Throw e, w).

Definition bind {W E A B} (m : M W E A) (k : A -> M W E B) : M W E B :=
  fun w =>
    match m w with
    | (Ok a, w') => k a w'
    | (Throw e, w') => (Throw e, w')
    end.

Definition lift {W E A} (r : Result E A) : M W E A := fun w => (r, w).

(** [try { m } catch (err) { h err }] *)
Definition try_catch {W E E' A} (m : M W E A) (h : E -> M W E' A)
  : M W E' A :=
  fun w =>
    match m w with
    | (Ok a, w') => (Ok a, w')
    | (Throw e, w') => h e w'
    end.

Declare Scope js_scope.
Delimit Scope js_scope with js.
Notation "x <- m ;; k" := (bind m (fun x => k))
  (at level 100, m at next level, right associativity) : js_scope.
Notation "m ;; k" := (bind m (fun _ => k))
  (at level 100, right associativity) : js_scope.
Local Open Scope js_scope.

(** ** Bootstrap reset (src/unnamed/part_000) *)

Module Bootstrap.

(** The calls [reset] makes on [repo.config]. *)
Inductive RepoCall : Type :=
| GetAll (options : Value)
| Replace (config : gmap string Value).

(** [repo.config]: both operations act on the repository's store and may
    fail. *)
Record IPFSRepo (Store : Type) : Type := {
  config_getAll : Value -> Store -> Result Error (gmap string Value) * Store;
  config_replace : gmap string Value -> Store -> Result Error unit * Store
}.
Arguments config_getAll {Store} _ _ _.
Arguments config_replace {Store} _ _ _.

(** The repository together with the record of the calls made on it. *)
Record World (Store : Type) : Type := mkWorld {
  store : Store;
  calls : list RepoCall
}.
Arguments mkWorld {Store} _ _.
Arguments store {Store} _.
Arguments calls {Store} _.

(** What [reset] resolves to: [{ Peers: [...] }]. *)
Record ResetResult (MA : Type) : Type := { Peers : list MA }.
Arguments Build_ResetResult {MA} _.
Arguments Peers {MA} _.

Section Reset.
Context {Store MA : Type}.
(** [repo], the argument of [createReset]. *)
Variable repo : IPFSRepo Store.
(** [defaultConfig], imported from ipfs-core-config/config. *)
Variable defaultConfig : unit -> gmap string Value.
(** [new Multiaddr(ma)], which throws on what is not an address. *)
Variable Multiaddr : Value -> Result Error MA.

Definition repo_config_getAll (options : Value)
  : M (World Store) Error (gmap string Value) :=
  fun w =>
    let '(r, s) := config_getAll repo options (store w) in
    (r, mkWorld s (calls w ++ [GetAll options])).

Definition repo_config_replace (config : gmap string Value)
  : M (World Store) Error unit :=
  fun w =>
    let '(r, s) := config_replace repo config (store w) in
    (r, mkWorld s (calls w ++ [Replace config])).

(** [async function reset (options = {})] *)
Definition reset (options : Value)
  : M (World Store) Error (ResetResult MA) :=
  let options :=
    match options with VUndefined => VObj ∅ | _ => options end in
  config <- repo_config_getAll options ;;
  let config := set config "Bootstrap" (get (defaultConfig tt) "Bootstrap") in
  repo_config_replace config ;;
  peers <-
    lift (value_map (fun ma => Multiaddr ma)
                    (get (defaultConfig tt) "Bootstrap")) ;;
  ret {| Peers := peers |}.

(** [withTimeoutOption], imported from ipfs-core-utils. *)
Variable withTimeoutOption :
  (Value -> M (World Store) Error (ResetResult MA)) ->
  Value -> M (World Store) Error (ResetResult MA).

Definition createReset : Value -> M (World Store) Error (ResetResult MA) :=
  withTimeoutOption reset.

End Reset.

(** A repository that keeps the configuration document in memory. *)
Definition memRepo : IPFSRepo (gmap string Value) := {|
  config_getAll := fun _ doc => (Ok doc, doc);
  config_replace := fun config _ => (Ok tt, config)
|}.

End Bootstrap.

(** ** Async iterables

    An async iterable is a state machine: a call of [next] yields a value,
    reports the end of the sequence, or throws, and moves the iterator to its
    following state.  The sequence may be unbounded. *)

Module It.

Inductive Step (A : Type) : Type :=
| Yield (a : A)
| Done
| Fail (e : Error).
Arguments Yield {A} a.
Arguments Done {A}.
Arguments Fail {A} e.

Record AsyncIterable (S A : Type) : Type := {
  next : S -> Step A * S;
  start : S
}.
Arguments next {S A} _ _.
Arguments start {S A} _.

(** it-map: [for await (const val of source) yield func(val)]. *)
Definition map {S A B} (source : AsyncIterable S A) (func : A -> B)
  : AsyncIterable S B := {|
  next := fun s =>
    match next source s with
    | (Yield a, s') => (Yield (func a), s')
    | (Done, s') => (Done, s')
    | (Fail e, s') => (Fail e, s')
    end;
  start := start source
|}.

(** [yield * inner] as the whole body of an async generator: the generator
    yields what [inner] yields, ends when it ends and throws what it
    throws. *)
Definition yield_star {S A} (inner : AsyncIterable S A)
  : AsyncIterable S A := {|
  next := fun s => next inner s;
  start := start inner
|}.

(** it-pipe with a source and one transform. *)
Definition pipe {S A B} (source : AsyncIterable S A)
    (transform : AsyncIterable S A -> AsyncIterable S B)
  : AsyncIterable S B := transform source.

(** How a run of pulls stands: more may come, the sequence ended, or it
    threw. *)
Inductive Ending : Type :=
| Running
| Finished
| Failed (e : Error).

(** What at most [n] calls of [next] from state [s] produce. *)
Fixpoint pulls {S A} (it : AsyncIterable S A) (n : nat) (s : S)
  : list A * Ending :=
  match n with
  | O => ([], Running)
  | Datatypes.S n' =>
      match next it s with
      | (Yield a, s') => let '(l, e) := pulls it n' s' in (a :: l, e)
      | (Done, _) => ([], Finished)
      | (Fail e, _) => ([], Failed e)
      end
  end.

Definition take {S A} (n : nat) (it : AsyncIterable S A) : list A * Ending :=
  pulls it n (start it).

(** The same iterable with every call of [next] counted in its state. *)
Definition counted {S A} (it : AsyncIterable S A)
  : AsyncIterable (S * nat) A := {|
  next := fun '(s, reads) =>
    let '(r, s') := next it s in (r, (s', Datatypes.S reads));
  start := (start it, O)
|}.

(** A finite sequence, optionally ending in a failure. *)
Definition of_list {A} (l : list A) (failure : option Error)
  : AsyncIterable (list A) A := {|
  next := fun s =>
    match s with
    | a :: rest => (Yield a, rest)
    | [] => (match failure with Some e => Fail e | None => Done end, [])
    end;
  start := l
|}.

End It.

(** ** Joi schemas

    The schemas of dht.js are built from [Joi.object().keys(...)],
    [.rename(...)] and the value types [string], [binary], [number],
    [array], [cid] and [timeout].  A schema is data; [validate] evaluates it
    the way Joi's own validator does for these constructs: renames first,
    then each declared key, then the unknown keys. *)

Module Joi.

Inductive BaseType : Type :=
| TString | TBinary | TCid | TTimeout | TNumber | TArray.

(** A value schema: its type and the flags and rules set on it. *)
Inductive Schema : Type := mkSchema {
  base : BaseType;
  presence_required : bool;
  rule_integer : bool;
  flag_default : option Value;
  rule_length : option nat;
  term_items : option Schema
}.

Record RenameOptions : Type := {
  override : bool;
  ignoreUndefined : bool
}.

Record Rename : Type := {
  from : string;
  to : string;
  options : RenameOptions
}.

(** An object schema: the declared keys, in the order written, and the
    renames, in the order chained. *)
Record ObjectSchema : Type := {
  term_keys : list (string * Schema);
  term_renames : list Rename
}.

(** [options.validate.options] of a route. *)
Record Prefs : Type := {
  allowUnknown : bool;
  stripUnknown : bool
}.

Record ValidationError : Type := {
  path : string;
  reason : string
}.

(** The conversions that live outside dht.js: [cid] and [timeout] are
    extension types of utils/joi.js, and strings are converted to numbers
    by Joi itself.  [None] is a rejected string. *)
Class Coercions : Type := {
  toCID : string -> option string;
  parseDuration : string -> option Z;
  toNumber : string -> option Z
}.

Section Validate.
Context `{Coercions}.

(** Validation of one value; the error is Joi's error code.  Numbers are
    integers here, so the rule [integer] holds of every number; an array may
    not hold [undefined] items. *)
Fixpoint validate_value (schema : Schema) (v : Value)
  : Result string Value :=
  match v with
  | VUndefined =>
      match flag_default schema with
      | Some d => Ok d
      | None =>
          if presence_required schema then Throw "any.required"
          else Ok VUndefined
      end
  | _ =>
      match base schema with
      | TString =>
          match v with
          | VStr s =>
              if decide (s = "") then Throw "string.empty" else Ok v
          | _ => Throw "string.base"
          end
      | TBinary =>
          match v with
          | VStr s => Ok (VBuf s)
          | VBuf _ => Ok v
          | _ => Throw "binary.base"
          end
      | TCid =>
          match v with
          | VStr s =>
              match toCID s with
              | Some c => Ok (VCid c)
              | None => Throw "cid.base"
              end
          | VCid _ => Ok v
          | _ => Throw "cid.base"
          end
      | TTimeout =>
          match v with
          | VStr s =>
              match parseDuration s with
              | Some ms => Ok (VNum ms)
              | None => Throw "number.base"
              end
          | VNum _ => Ok v
          | _ => Throw "number.base"
          end
      | TNumber =>
          match v with
          | VStr s =>
              match toNumber s with
              | Some n => Ok (VNum n)
              | None => Throw "number.base"
              end
          | VNum _ => Ok v
          | _ => Throw "number.base"
          end
      | TArray =>
          match v with
          | VArr xs =>
              bindR
                (array_map
                   (fun x =>
                      match x, term_items schema with
                      | VUndefined, _ => Throw "array.sparse"
                      | _, Some item => validate_value item x
                      | _, None => Ok x
                      end) xs)
                (fun ys =>
                   match rule_length schema with
                   | Some n =>
                       if decide (List.length ys = n) then Ok (VArr ys)
                       else Throw "array.length"
                   | None => Ok (VArr ys)
                   end)
          | _ => Throw "array.base"
          end
      end
  end.

(** One rename, on the object and the set of keys already renamed to. *)
Definition rename_step (r : Rename)
    (st : gmap string Value * gset string)
  : Result ValidationError (gmap string Value * gset string) :=
  let '(value, renamed) := st in
  match value !! from r with
  | None => Ok st
  | Some v =>
      let undefined :=
        match v with VUndefined => true | _ => false end in
      if undefined && ignoreUndefined (options r) then Ok st
      else if bool_decide (to r ∈ renamed) then
        Throw {| path := from r; reason := "object.rename.multiple" |}
      else if bool_decide (is_Some (value !! to r))
              && negb (override (options r)) then
        Throw {| path := from r; reason := "object.rename.override" |}
      else
        let value :=
          if undefined then delete (to r) value
          else <[to r := v]> value in
        Ok (delete (from r) value, {[to r]} ∪ renamed)
  end.

Fixpoint rename_all (rs : list Rename)
    (st : gmap string Value * gset string)
  : Result ValidationError (gmap string Value * gset string) :=
  match rs with
  | [] => Ok st
  | r :: rest => bindR (rename_step r st) (rename_all rest)
  end.

(** The declared keys, one after the other: a key whose validated value
    is undefined is left out of the result. *)
Fixpoint validate_keys (ks : list (string * Schema))
    (value out : gmap string Value)
  : Result ValidationError (gmap string Value) :=
  match ks with
  | [] => Ok out
  | (k, schema) :: rest =>
      match validate_value schema (get value k) with
      | Throw code => Throw {| path := k; reason := code |}
      | Ok VUndefined => validate_keys rest value (delete k out)
      | Ok v => validate_keys rest value (<[k := v]> out)
      end
  end.

Definition unknown_keys (schema : ObjectSchema)
    (value : gmap string Value) : list string :=
  filter (fun k => k ∉ (term_keys schema).*1) (elements (dom value)).

(** Validation of a query object against an object schema. *)
Definition validate (prefs : Prefs) (schema : ObjectSchema)
    (value : gmap string Value)
  : Result ValidationError (gmap string Value) :=
  bindR (rename_all (term_renames schema) (value, ∅)) (fun '(value, _) =>
  bindR (validate_keys (term_keys schema) value
           (if stripUnknown prefs then ∅ else value)) (fun out =>
  match unknown_keys schema value with
  | k :: _ =>
      if allowUnknown prefs then Ok out
      else Throw {| path := k; reason := "object.unknown" |}
  | [] => Ok out
  end)).

End Validate.

(** *** The builders, named as in Joi *)

Definition any (t : BaseType) : Schema := mkSchema t false false None None None.
Definition binary : Schema := any TBinary.
Definition cid : Schema := any TCid.
Definition timeout : Schema := any TTimeout.
Definition number : Schema := any TNumber.
Definition array : Schema := any TArray.

Definition required (s : Schema) : Schema :=
  mkSchema (base s) true (rule_integer s) (flag_default s)
           (rule_length s) (term_items s).
Definition integer (s : Schema) : Schema :=
  mkSchema (base s) (presence_required s) true (flag_default s)
           (rule_length s) (term_items s).
Definition default (d : Value) (s : Schema) : Schema :=
  mkSchema (base s) (presence_required s) (rule_integer s) (Some d)
           (rule_length s) (term_items s).
Definition items (item : Schema) (s : Schema) : Schema :=
  mkSchema (base s) (presence_required s) (rule_integer s) (flag_default s)
           (rule_length s) (Some item).
Definition length (n : nat) (s : Schema) : Schema :=
  mkSchema (base s) (presence_required s) (rule_integer s) (flag_default s)
           (Some n) (term_items s).

Definition object : ObjectSchema := {| term_keys := []; term_renames := [] |}.
Definition keys (ks : list (String.string * Schema)) (o : ObjectSchema)
  : ObjectSchema :=
  {| term_keys := term_keys o ++ ks; term_renames := term_renames o |}.
Definition rename (from to : String.string) (opts : RenameOptions)
    (o : ObjectSchema) : ObjectSchema :=
  {| term_keys := term_keys o;
     term_renames := term_renames o ++ [Build_Rename from to opts] |}.

Definition string : Schema := any TString.

End Joi.

(** Method chaining: [x .> f] is [x.f(...)]. *)
Notation "x .> f" := (f x) (at level 45, left associativity, only parsing).

(** ** The DHT resources (packages/ipfs-http-server/src/api/resources/dht.js) *)

Module Dht.

(** [x.toString()] for the opaque values the engine hands back. *)
Class ToString (A : Type) : Type := toString : A -> string.

(** [request.app.signal]: whether the abort signal has fired, as a function
    of the number of events a streaming call has produced so far. *)
Definition Signal : Type := nat -> bool.

(** [@hapi/boom] errors, by the call that builds them: [Boom.notFound(m)],
    [Boom.badRequest(m)], and [Boom.boomify(err, { message: m })].  What
    status and what message the error so built carries is given by
    [Boom_statusCode] and [Boom_message] below. *)
Inductive Boom : Type :=
| notFound (message : string)
| badRequest (message : string)
| boomify (err : Error) (message : string).



(** What a handler throws: a Boom error it built, or an error that passes
    through it uncaught. *)
Inductive Thrown : Type :=
| Raw (err : Error)
| Boomed (b : Boom).

(** The options object of an engine call; [numProviders] is only present
    for [findProvs]. *)
Record Options : Type := {
  numProviders : option Value;
  signal : Signal;
  timeout : Value
}.

(** The calls made on [ipfs.dht]. *)
Inductive EngineCall : Type :=
| CallFindPeer (peerId : Value) (options : Options)
| CallFindProvs (cid : Value) (options : Options)
| CallGet (buffer : Value) (options : Options)
| CallProvide (cid : Value) (options : Options)
| CallPut (key value : Value) (options : Options)
| CallQuery (peerId : Value) (options : Options).

Section Resources.
(** The engine's peer ids, addresses and values, and the state of its
    generators. *)
Context {PeerId Multiaddr Bytes G : Type}.
Context `{ToString PeerId} `{ToString Multiaddr} `{ToString Bytes}.
Context `{Joi.Coercions}.

(** A peer as the engine reports it: [{ id, addrs }], [addrs] possibly
    absent. *)
Record PeerInfo : Type := {
  id : PeerId;
  addrs : option (list Multiaddr)
}.

(** [ipfs.dht] *)
Record IPFS : Type := {
  dht_findPeer : Value -> Options -> Result Error PeerInfo;
  dht_findProvs : Value -> Options -> It.AsyncIterable G PeerInfo;
  dht_get : Value -> Options -> Result Error Bytes;
  dht_provide : Value -> Options -> Result Error unit;
  dht_put : Value -> Value -> Options -> Result Error unit;
  dht_query : Value -> Options -> It.AsyncIterable G PeerInfo
}.

Record Request : Type := {
  app_signal : Signal;
  server_app_ipfs : IPFS;
  query : gmap string Value
}.

(** The body of a streamed response: the sequence of chunks still to be
    written and the signal that cancels the writing. *)
Record StreamBody : Type := {
  chunks : It.AsyncIterable G Value;
  abort : Signal
}.

(** [h.response(body)], [h.response()] and the response of
    [streamResponse]. *)
Inductive Response : Type :=
| Json (body : Value)
| Empty
| Stream (body : StreamBody).

(** The world of a handler: the calls made on the engine so far. *)
Definition World : Type := list EngineCall.

(** An error that no [catch] handles leaves the handler as it is. *)
Definition uncaught {A} (m : M World Error A) : M World Thrown A :=
  try_catch m (fun err => throw (Raw err)).

Definition ipfs_dht_findPeer (ipfs : IPFS) (peerId : Value) (o : Options)
  : M World Error PeerInfo :=
  fun w => (dht_findPeer ipfs peerId o, w ++ [CallFindPeer peerId o]).

Definition ipfs_dht_findProvs (ipfs : IPFS) (cid : Value) (o : Options)
  : M World Thrown (It.AsyncIterable G PeerInfo) :=
  fun w => (Ok (dht_findProvs ipfs cid o), w ++ [CallFindProvs cid o]).

Definition ipfs_dht_get (ipfs : IPFS) (buffer : Value) (o : Options)
  : M World Error Bytes :=
  fun w => (dht_get ipfs buffer o, w ++ [CallGet buffer o]).

Definition ipfs_dht_provide (ipfs : IPFS) (cid : Value) (o : Options)
  : M World Error unit :=
  fun w => (dht_provide ipfs cid o, w ++ [CallProvide cid o]).

Definition ipfs_dht_put (ipfs : IPFS) (key value : Value) (o : Options)
  : M World Error unit :=
  fun w => (dht_put ipfs key value o, w ++ [CallPut key value o]).

Definition ipfs_dht_query (ipfs : IPFS) (peerId : Value) (o : Options)
  : M World Thrown (It.AsyncIterable G PeerInfo) :=
  fun w => (Ok (dht_query ipfs peerId o), w ++ [CallQuery peerId o]).

(** *** The streaming encoder *)

(** Modelled from the spec: utils/stream-response.js is not among the
    sources.  Section 4.3: the encoder is given a lazy sequence and
    writes one envelope per event, in the order produced, without
    accumulating; the response it returns carries that sequence and the
    request's cancellation signal. *)
Definition streamResponse (request : Request)
    (getSource : unit -> M World Thrown (It.AsyncIterable G Value))
  : M World Thrown Response :=
  source <- getSource tt ;;
  ret (Stream {| chunks := source; abort := app_signal request |}).

(** How the writing of a streamed body ended. *)
Inductive Status : Type :=
| Completed
| Cancelled
| Errored (e : Error).

Record Written : Type := {
  envelopes : list Value;
  status : Status;
  final : G
}.

(** Modelled from the spec: the pump loop of sections 4.3 and 9.  Each
    iteration first observes the cancellation signal and stops consuming
    the source once it has fired; otherwise it asks for the next value
    and writes it, ends on end-of-sequence (an empty sequence is a valid
    response), and terminates the sequence on a failure, which it
    records.  [produced] is the number of events produced so far. *)
Fixpoint pump (fuel : nat) (cancelled : Signal)
    (source : It.AsyncIterable G Value) (produced : nat) (s : G)
  : option Written :=
  match fuel with
  | O => None
  | S fuel' =>
      if cancelled produced then
        Some {| envelopes := []; status := Cancelled; final := s |}
      else
        match It.next source s with
        | (It.Yield chunk, s') =>
            match pump fuel' cancelled source (S produced) s' with
            | Some w =>
                Some {| envelopes := chunk :: envelopes w;
                        status := status w; final := final w |}
            | None => None
            end
        | (It.Done, s') =>
            Some {| envelopes := []; status := Completed; final := s' |}
        | (It.Fail e, s') =>
            Some {| envelopes := []; status := Errored e; final := s' |}
        end
  end.

(** Writing out a streamed body. *)
Definition drain (fuel : nat) (body : StreamBody) : option Written :=
  pump fuel (abort body) (chunks body) O (It.start (chunks body)).

(** *** findPeer *)

Definition findPeerResource_validate_query : Joi.ObjectSchema :=
  Joi.object .> Joi.keys [
    ("peerId", Joi.string .> Joi.required);
    ("timeout", Joi.timeout)
  ]
  .> Joi.rename "arg" "peerId"
       {| Joi.override := true; Joi.ignoreUndefined := true |}.

Definition findPeerResource_handler (request : Request)
  : M World Thrown Response :=
  let signal := app_signal request in
  let ipfs := server_app_ipfs request in
  let peerId := get (query request) "peerId" in
  let timeout := get (query request) "timeout" in
  res <- try_catch
           (ipfs_dht_findPeer ipfs peerId
              {| numProviders := None; signal := signal;
                 timeout := timeout |})
           (fun err =>
              if decide (code err = Some "ERR_LOOKUP_FAILED") then
                throw (Boomed (notFound (Error_toString err)))
              else
                throw (Boomed (boomify err (Error_toString err)))) ;;
  ret (Json (VObj {[
    "Responses" := VArr [VObj {[
      "ID" := VStr (toString (id res));
      "Addrs" := VArr ((fun a => VStr (toString a))
                         <$> default [] (addrs res))
    ]}];
    "Type" := VNum 2
  ]})).

(** *** findProvs *)

Definition findProvsResource_validate_query : Joi.ObjectSchema :=
  Joi.object .> Joi.keys [
    ("cid", Joi.cid .> Joi.required);
    ("numProviders", Joi.number .> Joi.integer .> Joi.default (VNum 20));
    ("timeout", Joi.timeout)
  ]
  .> Joi.rename "arg" "cid"
       {| Joi.override := true; Joi.ignoreUndefined := true |}
  .> Joi.rename "num-providers" "numProviders"
       {| Joi.override := true; Joi.ignoreUndefined := true |}.

(** The function handed to [streamResponse]: the engine's sequence piped
    through the generator that maps each provider to its envelope. *)
Definition findProvsResource_source (request : Request)
  : unit -> M World Thrown (It.AsyncIterable G Value) :=
  let signal := app_signal request in
  let ipfs := server_app_ipfs request in
  let cid := get (query request) "cid" in
  let numProviders := get (query request) "numProviders" in
  let timeout := get (query request) "timeout" in
  fun _ =>
    source <- ipfs_dht_findProvs ipfs cid
                {| numProviders := Some numProviders; signal := signal;
                   timeout := timeout |} ;;
    ret (It.pipe source (fun source =>
      It.yield_star (It.map source (fun '(Build_PeerInfo id addrs) =>
        VObj {[
          "Responses" := VArr [VObj {[
            "ID" := VStr (toString id);
            "Addrs" := VArr ((fun a => VStr (toString a))
                               <$> default [] addrs)
          ]}];
          "Type" := VNum 4
        ]})))).

Definition findProvsResource_handler (request : Request)
  : M World Thrown Response :=
  streamResponse request (findProvsResource_source request).

(** *** get *)

Definition getResource_validate_query : Joi.ObjectSchema :=
  Joi.object .> Joi.keys [
    ("buffer", Joi.binary .> Joi.required);
    ("timeout", Joi.timeout)
  ]
  .> Joi.rename "arg" "buffer"
       {| Joi.override := true; Joi.ignoreUndefined := true |}.

Definition getResource_handler (request : Request)
  : M World Thrown Response :=
  let signal := app_signal request in
  let ipfs := server_app_ipfs request in
  let buffer := get (query request) "buffer" in
  let timeout := get (query request) "timeout" in
  res <- uncaught (ipfs_dht_get ipfs buffer
                     {| numProviders := None; signal := signal;
                        timeout := timeout |}) ;;
  ret (Json (VObj {[
    "Extra" := VStr (toString res);
    "Type" := VNum 5
  ]})).

(** *** provide *)

Definition provideResource_validate_query : Joi.ObjectSchema :=
  Joi.object .> Joi.keys [
    ("cid", Joi.cid .> Joi.required);
    ("timeout", Joi.timeout)
  ]
  .> Joi.rename "arg" "cid"
       {| Joi.override := true; Joi.ignoreUndefined := true |}.

Definition provideResource_handler (request : Request)
  : M World Thrown Response :=
  let signal := app_signal request in
  let ipfs := server_app_ipfs request in
  let cid := get (query request) "cid" in
  let timeout := get (query request) "timeout" in
  uncaught (ipfs_dht_provide ipfs cid
              {| numProviders := None; signal := signal;
                 timeout := timeout |}) ;;
  ret Empty.

(** *** put *)

Definition putResource_validate_query : Joi.ObjectSchema :=
  Joi.object .> Joi.keys [
    ("arg", Joi.array .> Joi.length 2 .> Joi.items Joi.binary
              .> Joi.required);
    ("timeout", Joi.timeout)
  ].

(** The number of bytes of the code point that starts with byte [c], in a
    string held as UTF-8. *)
Definition utf8_width (c : ascii) : nat :=
  let n := nat_of_ascii c in
  if (n <? 128)%nat then 1%nat
  else if (n <? 224)%nat then 2%nat
  else if (n <? 240)%nat then 3%nat
  else 4%nat.

(** The first code point of a string and what follows it. *)
Definition code_point (s : string) : option (string * string) :=
  match s with
  | EmptyString => None
  | String c _ =>
      let k := utf8_width c in
      Some (substring 0 k s, substring k (String.length s - k) s)
  end.

(** The array pattern [[key, value]]: the first two elements of what is
    iterated, [undefined] where there is none.  An array iterates over its
    items, a buffer over its bytes as numbers, a string over its code
    points; other values are not iterable. *)
Definition destructure2 (v : Value) : Result Error (Value * Value) :=
  match v with
  | VArr xs => Ok (nth 0 xs VUndefined, nth 1 xs VUndefined)
  | VBuf bytes =>
      let byte i := match String.get i bytes with
                    | Some c => VNum (Z.of_nat (nat_of_ascii c))
                    | None => VUndefined
                    end in
      Ok (byte 0%nat, byte 1%nat)
  | VStr s =>
      match code_point s with
      | None => Ok (VUndefined, VUndefined)
      | Some (first, rest) =>
          Ok (VStr first,
              match code_point rest with
              | Some (second, _) => VStr second
              | None => VUndefined
              end)
      end
  | _ => Throw (TypeError "object is not iterable")
  end.

Definition putResource_handler (request : Request)
  : M World Thrown Response :=
  let signal := app_signal request in
  let ipfs := server_app_ipfs request in
  kv <- uncaught (lift (destructure2 (get (query request) "arg"))) ;;
  let '(key, value) := kv in
  let timeout := get (query request) "timeout" in
  uncaught (ipfs_dht_put ipfs key value
              {| numProviders := None; signal := signal;
                 timeout := timeout |}) ;;
  ret Empty.

(** *** query *)

Definition queryResource_validate_query : Joi.ObjectSchema :=
  Joi.object .> Joi.keys [
    ("peerId", Joi.string .> Joi.required);
    ("timeout", Joi.timeout)
  ]
  .> Joi.rename "arg" "peerId"
       {| Joi.override := true; Joi.ignoreUndefined := true |}.

(** The function handed to [streamResponse]. *)
Definition queryResource_source (request : Request)
  : unit -> M World Thrown (It.AsyncIterable G Value) :=
  let signal := app_signal request in
  let ipfs := server_app_ipfs request in
  let peerId := get (query request) "peerId" in
  let timeout := get (query request) "timeout" in
  fun _ =>
    source <- ipfs_dht_query ipfs peerId
                {| numProviders := None; signal := signal;
                   timeout := timeout |} ;;
    ret (It.pipe source (fun source =>
      It.yield_star (It.map source (fun '(Build_PeerInfo id _) =>
        VObj {[ "ID" := VStr (toString id) ]})))).

Definition queryResource_handler (request : Request)
  : M World Thrown Response :=
  streamResponse request (queryResource_source request).

(** *** The resources and their routes *)

(** [options.validate.options], the same for every resource. *)
Definition validate_options : Joi.Prefs :=
  {| Joi.allowUnknown := true; Joi.stripUnknown := true |}.

Record Resource : Type := {
  options_validate_options : Joi.Prefs;
  options_validate_query : Joi.ObjectSchema;
  handler : Request -> M World Thrown Response
}.

Definition findPeerResource : Resource :=
  {| options_validate_options := validate_options;
     options_validate_query := findPeerResource_validate_query;
     handler := findPeerResource_handler |}.

Definition findProvsResource : Resource :=
  {| options_validate_options := validate_options;
     options_validate_query := findProvsResource_validate_query;
     handler := findProvsResource_handler |}.

Definition getResource : Resource :=
  {| options_validate_options := validate_options;
     options_validate_query := getResource_validate_query;
     handler := getResource_handler |}.

Definition provideResource : Resource :=
  {| options_validate_options := validate_options;
     options_validate_query := provideResource_validate_query;
     handler := provideResource_handler |}.

Definition putResource : Resource :=
  {| options_validate_options := validate_options;
     options_validate_query := putResource_validate_query;
     handler := putResource_handler |}.

Definition queryResource : Resource :=
  {| options_validate_options := validate_options;
     options_validate_query := queryResource_validate_query;
     handler := queryResource_handler |}.

(** The request lifecycle of the HTTP framework for a route with a query
    schema: the query is validated first; a validation failure is
    answered with a bad request that names the field and the handler is
    not entered, otherwise the handler runs on the validated query. *)
Definition serve (resource : Resource) (request : Request)
  : M World Thrown Response :=
  match Joi.validate (options_validate_options resource)
                     (options_validate_query resource)
                     (query request) with
  | Throw err =>
      throw (Boomed (badRequest
               (Joi.path err +:+ ": " +:+ Joi.reason err)))
  | Ok validated =>
      handler resource
        {| app_signal := app_signal request;
           server_app_ipfs := server_app_ipfs request;
           query := validated |}
  end.

(** *** Envelopes

    The invariant of the wire envelope (section 3 of the
    specification), as a check on a value. *)

Definition discriminator (envelope : Value) : option Z :=
  match envelope with
  | VObj props =>
      match props !! "Type" with
      | Some (VNum t) => Some t
      | _ => None
      end
  | _ => None
  end.

Definition is_string (v : Value) : bool :=
  match v with VStr _ => true | _ => false end.

(** [{ ID: <string>, Addrs: [<string>, ...] }] *)
Definition is_peer_descriptor (v : Value) : bool :=
  match v with
  | VObj props =>
      match props !! "ID", props !! "Addrs" with
      | Some (VStr _), Some (VArr addrs) => forallb is_string addrs
      | _, _ => false
      end
  | _ => false
  end.

(** Peer and provider responses (2 and 4) carry a list of peer
    descriptors, a value response (5) carries a raw value. *)
Definition payload_consistent (envelope : Value) : bool :=
  match envelope with
  | VObj props =>
      match discriminator envelope with
      | Some 2 | Some 4 =>
          match props !! "Responses" with
          | Some (VArr rs) => forallb is_peer_descriptor rs
          | _ => false
          end
      | Some 5 =>
          match props !! "Extra" with
          | Some (VStr _) => true
          | _ => false
          end
      | _ => false
      end
  | _ => false
  end.

Definition well_formed_envelope (envelope : Value) : Prop :=
  is_Some (discriminator envelope) /\ payload_consistent envelope = true.

(** The envelopes of a request-response call: the body of its response. *)
Definition response_envelopes (r : Result Thrown Response * World)
  : list Value :=
  match fst r with
  | Ok (Json body) => [body]
  | _ => []
  end.

(** The envelopes the first [n] pulls bring out of the sequence a streaming
    call hands to [streamResponse]. *)
Definition stream_envelopes (n : nat)
    (r : Result Thrown (It.AsyncIterable G Value) * World) : list Value :=
  match fst r with
  | Ok chunks => fst (It.take n chunks)
  | Throw _ => []
  end.

(** *** Positional arguments of put *)

Definition is_binary (v : Value) : bool :=
  match v with VStr _ | VBuf _ => true | _ => false end.

(** Exactly two binary items. *)
Definition two_binary_items (v : Value) : bool :=
  match v with
  | VArr [key; value] => is_binary key && is_binary value
  | _ => false
  end.

End Resources.

End Dht.

(** ** A concrete setting

    A default template, an address parser, and a stub engine, used to run
    the definitions above on explicit inputs. *)

Module Sample.

Definition bootstrapList : list Value :=
  [VStr "/ip4/104.131.131.82/tcp/4001/p2p/QmaCpDMGvV2BGHeYERUEnRQAwe3N8SzbUtfsmvsqQLuvuJ";
   VStr "/dnsaddr/bootstrap.libp2p.io/p2p/QmNnooDu7bfjPFoTZYxMNLWUQJyrVwtbZg5gBMjTezGAJN"].

Definition defaultConfig (_ : unit) : gmap string Value :=
  {[ "Bootstrap" := VArr bootstrapList;
     "Discovery" := VObj {[ "MDNS" := VObj {[ "Enabled" := VBool true ]} ]} ]}.

(** An address is a string that starts with a slash. *)
Definition Multiaddr (ma : Value) : Result Error string :=
  match ma with
  | VStr (String "/"%char rest) => Ok (String "/"%char rest)
  | _ => Throw (mkError "Error" "invalid multiaddr" None)
  end.

Definition docAB : gmap string Value :=
  {[ "A" := VNum 1; "B" := VNum 2;
     "Bootstrap" := VArr [VStr "/ip4/127.0.0.1/tcp/4001"] ]}.

Definition docOther : gmap string Value :=
  {[ "Bootstrap" := VArr []; "Identity" := VObj {[ "PeerID" := VStr "Qm" ]} ]}.

(** Peer ids, addresses and values held by their string form. *)
#[global] Instance string_ToString : Dht.ToString string := fun s => s.

#[global] Instance coercions : Joi.Coercions := {|
  Joi.toCID := fun s => if String.prefix "Qm" s then Some s else None;
  Joi.parseDuration := fun s => if String.eqb s "1s" then Some 1000 else None;
  Joi.toNumber := fun s => if String.eqb s "5" then Some 5 else None
|}.

Definition peerA : @Dht.PeerInfo string string :=
  {| Dht.id := "QmPeerA"; Dht.addrs := Some ["/ip4/10.0.0.1/tcp/4001"] |}.

Definition peerB : @Dht.PeerInfo string string :=
  {| Dht.id := "QmPeerB"; Dht.addrs := None |}.

Definition peerC : @Dht.PeerInfo string string :=
  {| Dht.id := "QmPeerC"; Dht.addrs := Some [] |}.

Definition failure : Error := mkError "Error" "Nope" None.

Definition lookupFailure : Error :=
  mkError "Error" "Nope" (Some "ERR_LOOKUP_FAILED").

(** A stub engine: its streaming calls produce [events]; with [failing] set
    every request-response call throws it and every sequence ends in it. *)
Definition engine (events : list (@Dht.PeerInfo string string))
    (failing : option Error)
  : @Dht.IPFS string string string (list (@Dht.PeerInfo string string)) :=
  let answer {A} (a : A) : Result Error A :=
    match failing with Some e => Throw e | None => Ok a end in
  {| Dht.dht_findPeer := fun _ _ => answer peerA;
     Dht.dht_findProvs := fun _ _ => It.of_list events failing;
     Dht.dht_get := fun _ _ => answer "value";
     Dht.dht_provide := fun _ _ => answer tt;
     Dht.dht_put := fun _ _ _ => answer tt;
     Dht.dht_query := fun _ _ => It.of_list events failing |}.

(** The same engine with the reads of its sequences counted. *)
Definition countingEngine (events : list (@Dht.PeerInfo string string))
  : @Dht.IPFS string string string
      (list (@Dht.PeerInfo string string) * nat) :=
  {| Dht.dht_findPeer := fun _ _ => Ok peerA;
     Dht.dht_findProvs := fun _ _ => It.counted (It.of_list events None);
     Dht.dht_get := fun _ _ => Ok "value";
     Dht.dht_provide := fun _ _ => Ok tt;
     Dht.dht_put := fun _ _ _ => Ok tt;
     Dht.dht_query := fun _ _ => It.counted (It.of_list events None) |}.

Definition never : Dht.Signal := fun _ => false.

(** The signal that fires once [N] events have been produced. *)
Definition after (N : nat) : Dht.Signal := fun k => (N <=? k)%nat.

Definition request {G} (ipfs : @Dht.IPFS string string string G)
    (signal : Dht.Signal) (query : list (string * Value))
  : @Dht.Request string string string G :=
  {| Dht.app_signal := signal;
     Dht.server_app_ipfs := ipfs;
     Dht.query := list_to_map query |}.

(** A repository whose read fails, or else whose replace fails. *)
Definition failingRepo (read_fails : bool)
  : Bootstrap.IPFSRepo (gmap string Value) := {|
  Bootstrap.config_getAll := fun _ doc =>
    if read_fails then (Throw failure, doc) else (Ok doc, doc);
  Bootstrap.config_replace := fun _ doc => (Throw failure, doc)
|}.

(** A template whose second entry is not an address. *)
Definition brokenConfig (_ : unit) : gmap string Value :=
  {[ "Bootstrap" := VArr [VStr "/ip4/10.0.0.1/tcp/4001"; VStr "nowhere"] ]}.

End Sample.

(** ** Bootstrap reset: what is persisted and what is returned *)

Section ResetProperties.
Import Bootstrap.
Context {Store MA : Type}.
Variable repo : IPFSRepo Store.
Variable defaultConfig : unit -> gmap string Value.
Variable Multiaddr : Value -> Result Error MA.

(** A call of [reset] that returns has read the repository, replaced the
    document, and parsed the template's list, in that order. *)
Lemma reset_inv options w r w' :
  reset repo defaultConfig Multiaddr options w = (Ok r, w') ->
  exists doc s1 s2 opts,
    opts = match options with VUndefined => VObj ∅ | _ => options end /\
    config_getAll repo opts (store w) = (Ok doc, s1) /\
    config_replace repo
      (set doc "Bootstrap" (get (defaultConfig tt) "Bootstrap")) s1
      = (Ok tt, s2) /\
    value_map Multiaddr (get (defaultConfig tt) "Bootstrap") = Ok (Peers r) /\
    w' = mkWorld s2
           (calls w ++
              [GetAll opts;
               Replace (set doc "Bootstrap"
                          (get (defaultConfig tt) "Bootstrap"))]).
Proof.
  unfold reset, bind, repo_config_getAll, repo_config_replace, lift, ret.
  set (opts := match options with VUndefined => VObj ∅ | _ => options end).
  destruct (config_getAll repo opts (store w)) as [[doc|e] s1] eqn:Hget;
    [|discriminate].
  cbn [store calls].
  destruct (config_replace repo _ s1) as [[[]|e] s2] eqn:Hrep;
    [|discriminate].
  destruct (value_map _ _) as [peers|e] eqn:Hmap; [|discriminate].
  intros [= <- <-].
  exists doc, s1, s2, opts. cbn [Peers].
  rewrite <- app_assoc. auto.
Qed.

(** C1.  When the repository hands out a document [doc] and accepts the
    replacement, [reset] has replaced the stored document by [doc] with
    its [Bootstrap] field set to the template's list and every other field
    as it was, and returns as [Peers] that list with each entry parsed by
    [Multiaddr]. *)
Theorem reset_replaces_only_Bootstrap
    (options : Value) (w : World Store) (doc : gmap string Value)
    (s1 s2 : Store) (defaults : list Value) (peers : list MA) :
  let opts := match options with VUndefined => VObj ∅ | _ => options end in
  let persisted := <["Bootstrap" := VArr defaults]> doc in
  defaultConfig tt !! "Bootstrap" = Some (VArr defaults) ->
  array_map Multiaddr defaults = Ok peers ->
  config_getAll repo opts (store w) = (Ok doc, s1) ->
  config_replace repo persisted s1 = (Ok tt, s2) ->
  reset repo defaultConfig Multiaddr options w
    = (Ok {| Peers := peers |},
       mkWorld s2 (calls w ++ [GetAll opts; Replace persisted]))
  /\ persisted !! "Bootstrap" = Some (VArr defaults)
  /\ (forall k, k <> "Bootstrap" -> persisted !! k = doc !! k).
Proof.
  intros opts persisted Htpl Hparse Hget Hrep.
  split; [|split].
  - unfold reset, bind, repo_config_getAll, repo_config_replace, lift, ret.
    fold opts. rewrite Hget. cbn [store calls].
    unfold get, set. rewrite Htpl. cbn [from_option id].
    fold persisted. rewrite Hrep.
    cbn [value_map].
    change (array_map (fun ma => Multiaddr ma) defaults)
      with (array_map Multiaddr defaults).
    rewrite Hparse.
    by rewrite <- app_assoc.
  - apply lookup_insert_eq.
  - intros k Hk. by apply lookup_insert_ne.
Qed.

End ResetProperties.

(** C9.  Two calls of [reset] that return, on any two repositories holding
    any two documents and with any options, return the same [Peers]: the
    list obtained by evaluating the default template and parsing its
    [Bootstrap] entries.  Nothing the repository holds or does enters it. *)
Theorem reset_Peers_only_from_template
    {Store1 Store2 MA : Type}
    (repo1 : Bootstrap.IPFSRepo Store1) (repo2 : Bootstrap.IPFSRepo Store2)
    (defaultConfig : unit -> gmap string Value)
    (Multiaddr : Value -> Result Error MA)
    (options1 options2 : Value)
    (w1 w1' : Bootstrap.World Store1) (w2 w2' : Bootstrap.World Store2)
    (r1 r2 : Bootstrap.ResetResult MA) :
  Bootstrap.reset repo1 defaultConfig Multiaddr options1 w1 = (Ok r1, w1') ->
  Bootstrap.reset repo2 defaultConfig Multiaddr options2 w2 = (Ok r2, w2') ->
  Bootstrap.Peers r1 = Bootstrap.Peers r2
  /\ value_map Multiaddr (get (defaultConfig tt) "Bootstrap")
     = Ok (Bootstrap.Peers r1).
Proof.
  intros H1 H2.
  apply reset_inv in H1 as (? & ? & ? & ? & _ & _ & _ & Hp1 & _).
  apply reset_inv in H2 as (? & ? & ? & ? & _ & _ & _ & Hp2 & _).
  split; [congruence | exact Hp1].
Qed.

(** The example of the specification: other fields [{A: 1, B: 2}], reset on
    the in-memory repository. *)
Example reset_docAB :
  Bootstrap.reset Bootstrap.memRepo Sample.defaultConfig Sample.Multiaddr
    VUndefined (Bootstrap.mkWorld Sample.docAB [])
  = (Ok {| Bootstrap.Peers :=
             ["/ip4/104.131.131.82/tcp/4001/p2p/QmaCpDMGvV2BGHeYERUEnRQAwe3N8SzbUtfsmvsqQLuvuJ";
              "/dnsaddr/bootstrap.libp2p.io/p2p/QmNnooDu7bfjPFoTZYxMNLWUQJyrVwtbZg5gBMjTezGAJN"] |},
     Bootstrap.mkWorld
       {[ "A" := VNum 1; "B" := VNum 2;
          "Bootstrap" := VArr Sample.bootstrapList ]}
       [Bootstrap.GetAll (VObj ∅);
        Bootstrap.Replace
          {[ "A" := VNum 1; "B" := VNum 2;
             "Bootstrap" := VArr Sample.bootstrapList ]}]).
Proof. vm_compute. reflexivity. Qed.

Lemma reset_replaces_only_Bootstrap_witness :
  let persisted := <["Bootstrap" := VArr Sample.bootstrapList]> Sample.docAB in
  let peers :=
    ["/ip4/104.131.131.82/tcp/4001/p2p/QmaCpDMGvV2BGHeYERUEnRQAwe3N8SzbUtfsmvsqQLuvuJ";
     "/dnsaddr/bootstrap.libp2p.io/p2p/QmNnooDu7bfjPFoTZYxMNLWUQJyrVwtbZg5gBMjTezGAJN"] in
  (Sample.defaultConfig tt !! "Bootstrap" = Some (VArr Sample.bootstrapList)
   /\ array_map Sample.Multiaddr Sample.bootstrapList = Ok peers
   /\ Bootstrap.config_getAll Bootstrap.memRepo (VObj ∅) Sample.docAB
      = (Ok Sample.docAB, Sample.docAB)
   /\ Bootstrap.config_replace Bootstrap.memRepo persisted Sample.docAB
      = (Ok tt, persisted))
  /\ (Bootstrap.reset Bootstrap.memRepo Sample.defaultConfig Sample.Multiaddr
        VUndefined (Bootstrap.mkWorld Sample.docAB [])
      = (Ok {| Bootstrap.Peers := peers |},
         Bootstrap.mkWorld persisted
           [Bootstrap.GetAll (VObj ∅); Bootstrap.Replace persisted])
      /\ persisted !! "Bootstrap" = Some (VArr Sample.bootstrapList)
      /\ (forall k, k <> "Bootstrap" -> persisted !! k = Sample.docAB !! k)).
Proof.
  intros persisted peers.
  split; [repeat split|].
  exact (reset_replaces_only_Bootstrap Bootstrap.memRepo Sample.defaultConfig
           Sample.Multiaddr VUndefined (Bootstrap.mkWorld Sample.docAB [])
           Sample.docAB Sample.docAB persisted Sample.bootstrapList peers
           eq_refl eq_refl eq_refl eq_refl).
Defined.

Lemma reset_Peers_only_from_template_witness :
  let peers :=
    ["/ip4/104.131.131.82/tcp/4001/p2p/QmaCpDMGvV2BGHeYERUEnRQAwe3N8SzbUtfsmvsqQLuvuJ";
     "/dnsaddr/bootstrap.libp2p.io/p2p/QmNnooDu7bfjPFoTZYxMNLWUQJyrVwtbZg5gBMjTezGAJN"] in
  let run doc options :=
    Bootstrap.reset Bootstrap.memRepo Sample.defaultConfig Sample.Multiaddr
      options (Bootstrap.mkWorld doc []) in
  (fst (run Sample.docAB VUndefined) = Ok {| Bootstrap.Peers := peers |}
   /\ fst (run Sample.docOther (VObj {[ "timeout" := VNum 1000 ]}))
      = Ok {| Bootstrap.Peers := peers |})
  /\ (peers = peers
      /\ value_map Sample.Multiaddr (get (Sample.defaultConfig tt) "Bootstrap")
         = Ok peers).
Proof.
  intros peers run.
  split; [split; reflexivity|].
  exact (reset_Peers_only_from_template Bootstrap.memRepo Bootstrap.memRepo
           Sample.defaultConfig Sample.Multiaddr
           VUndefined (VObj {[ "timeout" := VNum 1000 ]})
           (Bootstrap.mkWorld Sample.docAB []) _
           (Bootstrap.mkWorld Sample.docOther []) _
           {| Bootstrap.Peers := peers |} {| Bootstrap.Peers := peers |}
           eq_refl eq_refl).
Defined.

(** ** Iterables: mapping is one-to-one and in order *)

Section Iterables.
Context {S A B : Type}.
Implicit Types (source : It.AsyncIterable S A) (func : A -> B).

Lemma next_yield_star_map source func s :
  It.next (It.yield_star (It.map source func)) s =
    match It.next source s with
    | (It.Yield a, s') => (It.Yield (func a), s')
    | (It.Done, s') => (It.Done, s')
    | (It.Fail e, s') => (It.Fail e, s')
    end.
Proof. reflexivity. Qed.

(** [n] pulls on the mapped sequence are [n] pulls on its source: the same
    number of values, in the same order, each the image of its event, and
    the same ending. *)
Lemma pulls_yield_star_map source func n s :
  It.pulls (It.yield_star (It.map source func)) n s =
    (func <$> fst (It.pulls source n s), snd (It.pulls source n s)).
Proof.
  revert s. induction n as [|n IH]; intros s; [reflexivity|].
  cbn [It.pulls]. rewrite next_yield_star_map.
  destruct (It.next source s) as [[a| |e] s']; try reflexivity.
  rewrite IH. by destruct (It.pulls source n s').
Qed.

Lemma take_pipe_map source func n :
  It.take n (It.pipe source (fun source =>
               It.yield_star (It.map source func))) =
    (func <$> fst (It.take n source), snd (It.take n source)).
Proof. apply pulls_yield_star_map. Qed.

End Iterables.

(** ** The DHT handlers *)

Section DhtProperties.
Import Dht.
Context {PeerId Multiaddr Bytes G : Type}.
Context `{ToString PeerId} `{ToString Multiaddr} `{ToString Bytes}.
Context `{Joi.Coercions}.
Implicit Types (request : @Request PeerId Multiaddr Bytes G) (w : World).

(** C3.  For every find-providers request the handler answers with a
    streamed response, having called the engine once, and for every number
    [n] of pulls the envelopes that come out of that response are the
    images, one per event and in the order produced, of the events those [n]
    pulls consume from the engine's sequence; each has [Type] 4 and carries
    the event's peer id in string form and its addresses, and the run ends
    the way the engine's does. *)
Theorem findProvs_envelope_per_event request w n :
  let options :=
    {| numProviders := Some (get (query request) "numProviders");
       signal := app_signal request;
       timeout := get (query request) "timeout" |} in
  let consumed :=
    It.take n (dht_findProvs (server_app_ipfs request)
                 (get (query request) "cid") options) in
  exists body,
    handler findProvsResource request w
      = (Ok (Stream body),
         w ++ [CallFindProvs (get (query request) "cid") options])
    /\ fst (It.take n (chunks body))
       = (fun event =>
            VObj {[
              "Responses" := VArr [VObj {[
                "ID" := VStr (toString (id event));
                "Addrs" := VArr (VStr <$>
                  match addrs event with
                  | Some l => toString <$> l
                  | None => []
                  end)
              ]}];
              "Type" := VNum 4
            ]}) <$> fst consumed
    /\ List.length (fst (It.take n (chunks body)))
       = List.length (fst consumed)
    /\ snd (It.take n (chunks body)) = snd consumed
    /\ Forall (fun envelope => discriminator envelope = Some 4)
         (fst (It.take n (chunks body))).
Proof.
  intros options consumed.
  eexists. split; [reflexivity|].
  cbn [chunks]. rewrite take_pipe_map. fold options consumed. cbn [fst snd].
  assert (Hmap : forall (f g : @PeerInfo PeerId Multiaddr -> Value)
                       (l : list (@PeerInfo PeerId Multiaddr)),
             (forall x, f x = g x) -> f <$> l = g <$> l).
  { intros f g l Hfg. induction l; cbn; [done|]. by rewrite Hfg, IHl. }
  split; [|split; [|split]].
  - apply Hmap. intros [i [l|]]; cbn; [|done].
    by rewrite <- list_fmap_compose.
  - by rewrite length_fmap.
  - done.
  - apply Forall_fmap, Forall_forall. by intros [i a] _.
Qed.

(** C4.  For a find-peer request that passes validation and whose lookup the
    engine resolves with [res], the response body is one envelope: [Type] 2
    and a single response with the string form of [res.id] and the string
    forms of [res.addrs], the empty list when [res] has no addresses. *)
Theorem findPeer_single_envelope request w validated
    (res : @PeerInfo PeerId Multiaddr) :
  let options :=
    {| numProviders := None; signal := app_signal request;
       timeout := get validated "timeout" |} in
  Joi.validate validate_options findPeerResource_validate_query
    (query request) = Ok validated ->
  dht_findPeer (server_app_ipfs request) (get validated "peerId") options
    = Ok res ->
  serve findPeerResource request w
    = (Ok (Json (VObj {[
         "Responses" := VArr [VObj {[
           "ID" := VStr (toString (id res));
           "Addrs" := VArr (VStr <$>
             match addrs res with
             | Some l => toString <$> l
             | None => []
             end)
         ]}];
         "Type" := VNum 2
       ]})),
       w ++ [CallFindPeer (get validated "peerId") options]).
Proof.
  intros options Hvalid Hres.
  unfold serve. cbn [findPeerResource options_validate_options
                     options_validate_query handler].
  rewrite Hvalid.
  unfold findPeerResource_handler, bind, try_catch, ipfs_dht_findPeer, ret.
  cbn [app_signal server_app_ipfs query]. fold options. rewrite Hres.
  destruct res as [i [l|]]; cbn; [|done].
  by rewrite <- list_fmap_compose.
Qed.



Lemma fmap_VStr_toString {A} `{ToString A} (l : list A) :
  (fun a => VStr (toString a)) <$> l = VStr <$> (toString <$> l).
Proof. by rewrite <- list_fmap_compose. Qed.

Lemma forallb_is_string (l : list string) :
  forallb is_string (VStr <$> l) = true.
Proof. induction l; cbn; auto. Qed.

(** An envelope [{ Responses: [{ ID, Addrs }], Type }] with [Type] 2 or 4
    satisfies the invariant of the wire envelope. *)
Lemma peer_envelope_well_formed (t : Z) (i : string) (l : list string) :
  t = 2 \/ t = 4 ->
  let envelope :=
    VObj {[ "Responses" := VArr [VObj {[ "ID" := VStr i;
                                         "Addrs" := VArr (VStr <$> l) ]}];
            "Type" := VNum t ]} in
  well_formed_envelope envelope /\ discriminator envelope = Some t.
Proof.
  intros Ht envelope.
  assert (Hd : discriminator envelope = Some t) by reflexivity.
  split; [split|]; [by rewrite Hd | | done].
  unfold payload_consistent. fold envelope. rewrite Hd.
  assert (Hp : forallb is_peer_descriptor
                 [VObj {[ "ID" := VStr i; "Addrs" := VArr (VStr <$> l) ]}]
               = true).
  { cbn [forallb]. rewrite andb_true_r. apply forallb_is_string. }
  destruct Ht as [-> | ->]; exact Hp.
Qed.

(** C5.  Every envelope of find-peer, find-providers and get carries a
    [Type] (2, 4 and 5) and a payload of the shape that goes with it.  An
    envelope of query is [{ ID: <string> }]: it carries no [Type]. *)
Theorem envelopes_discriminated request w n :
  Forall (fun envelope =>
            well_formed_envelope envelope /\ discriminator envelope = Some 2)
    (response_envelopes (findPeerResource_handler request w))
  /\ Forall (fun envelope =>
               well_formed_envelope envelope
               /\ discriminator envelope = Some 4)
       (stream_envelopes n (findProvsResource_source request tt w))
  /\ Forall (fun envelope =>
               well_formed_envelope envelope
               /\ discriminator envelope = Some 5)
       (response_envelopes (getResource_handler request w))
  /\ Forall (fun envelope =>
               (exists s, envelope = VObj {[ "ID" := VStr s ]})
               /\ discriminator envelope = None)
       (stream_envelopes n (queryResource_source request tt w)).
Proof.
  split; [|split; [|split]].
  - unfold response_envelopes, findPeerResource_handler, bind, try_catch,
      ipfs_dht_findPeer, throw, ret.
    destruct (dht_findPeer _ _ _) as [res|err]; cbn [fst].
    + constructor; [|constructor].
      rewrite fmap_VStr_toString.
      apply peer_envelope_well_formed. by left.
    + by destruct (decide _).
  - unfold stream_envelopes, findProvsResource_source, bind,
      ipfs_dht_findProvs, ret. cbn [fst].
    rewrite take_pipe_map. cbn [fst].
    apply Forall_fmap, Forall_forall. intros [i a] _. cbn [compose].
    rewrite fmap_VStr_toString.
    apply peer_envelope_well_formed. by right.
  - unfold response_envelopes, getResource_handler, bind, uncaught, try_catch,
      ipfs_dht_get, throw, ret.
    destruct (dht_get _ _ _) as [res|err]; cbn [fst]; [|constructor].
    constructor; [|constructor].
    split; [split; [by eexists|]|]; reflexivity.
  - unfold stream_envelopes, queryResource_source, bind, ipfs_dht_query, ret.
    cbn [fst]. rewrite take_pipe_map. cbn [fst].
    apply Forall_fmap, Forall_forall. intros [i a] _. cbn [compose].
    split; [by eexists|reflexivity].
Qed.

(** C8.  For a query request on which the engine's sequence is empty (its
    first [next] reports the end), the sequence of envelopes is obtained
    without an error and is empty as well: any number of pulls yields no
    envelope and finds the sequence finished, not failed. *)
Theorem query_empty_sequence request w n :
  let options :=
    {| numProviders := None; signal := app_signal request;
       timeout := get (query request) "timeout" |} in
  let source :=
    dht_query (server_app_ipfs request) (get (query request) "peerId")
      options in
  fst (It.next source (It.start source)) = It.Done ->
  exists chunks,
    queryResource_source request tt w
      = (Ok chunks, w ++ [CallQuery (get (query request) "peerId") options])
    /\ It.take (S n) chunks = ([], It.Finished).
Proof.
  intros options source Hempty.
  eexists. split; [reflexivity|].
  rewrite take_pipe_map. fold options source.
  unfold It.take. cbn [It.pulls].
  destruct (It.next source (It.start source)) as [[a| |e] s'];
    cbn in Hempty; try discriminate.
  reflexivity.
Qed.

Lemma array_map_length {E A B} (f : A -> Result E B) xs ys :
  array_map f xs = Ok ys -> List.length ys = List.length xs.
Proof.
  revert ys. induction xs as [|x xs IH]; intros ys; cbn.
  - by intros [= <-].
  - destruct (f x) as [y|e]; cbn; [|discriminate].
    destruct (array_map f xs) as [ys'|e]; cbn; [|discriminate].
    intros [= <-]. cbn. f_equal. by apply IH.
Qed.

(** The schema of put's [arg] rejects whatever is not an array of exactly
    two binary items. *)
Lemma put_arg_rejected (v : Value) :
  two_binary_items v = false ->
  exists code,
    Joi.validate_value
      (Joi.array .> Joi.length 2 .> Joi.items Joi.binary .> Joi.required) v
    = Throw code.
Proof.
  intros Hv.
  destruct v as [| | | | | | |xs|]; try (by eexists).
  cbn [Joi.validate_value Joi.base Joi.required Joi.items Joi.length
       Joi.array Joi.any Joi.term_items Joi.rule_length].
  destruct (array_map _ xs) as [ys|code] eqn:Hmap; cbn [bindR];
    [|by eexists].
  destruct (decide (List.length ys = 2%nat)) as [Hlen|Hlen]; [|by eexists].
  exfalso.
  apply array_map_length in Hmap as Hlen'. rewrite Hlen in Hlen'.
  destruct xs as [|a [|b [|c xs]]]; try discriminate.
  cbn in Hmap, Hv.
  destruct a; cbn in Hmap, Hv; try discriminate;
    destruct b; cbn in Hmap, Hv; discriminate.
Qed.

(** C6.  A put request whose [arg] is not an array of exactly two binary
    items is answered with a bad request, and the record of the calls made
    on the engine is what it was: [ipfs.dht.put] has not been called. *)
Theorem put_validated_before_engine request w :
  two_binary_items (get (query request) "arg") = false ->
  exists message,
    serve putResource request w = (Throw (Boomed (badRequest message)), w).
Proof.
  intros Hv. apply put_arg_rejected in Hv as [code Hcode].
  unfold serve, Joi.validate.
  cbn [putResource options_validate_options options_validate_query
       putResource_validate_query Joi.keys Joi.object Joi.term_keys
       Joi.term_renames app Joi.rename_all bindR Joi.validate_keys].
  rewrite Hcode. by eexists.
Qed.

(** *** The positional alias *)

(** Renaming [arg], when it is supplied, writes its value over the named
    field, whatever that field held. *)
Lemma rename_arg_supplied (named : string) (raw : gmap string Value)
    (a : Value) :
  named <> "arg" ->
  raw !! "arg" = Some a ->
  a <> VUndefined ->
  Joi.rename_step
    {| Joi.from := "arg"; Joi.to := named;
       Joi.options := {| Joi.override := true; Joi.ignoreUndefined := true |} |}
    (raw, ∅)
  = Ok (<[named := a]> (delete "arg" raw), {[named]} ∪ ∅).
Proof.
  intros Hne Harg Ha. unfold Joi.rename_step. cbn [Joi.from Joi.to Joi.options
    Joi.override Joi.ignoreUndefined]. rewrite Harg.
  rewrite bool_decide_eq_false_2 by set_solver.
  rewrite andb_false_r.
  destruct a; try done; cbn [andb]; by rewrite delete_insert_ne.
Qed.

Lemma rename_arg_absent (named : string) (raw : gmap string Value)
    (renamed : gset string) (o : Joi.RenameOptions) :
  raw !! "arg" = None ->
  Joi.rename_step {| Joi.from := "arg"; Joi.to := named; Joi.options := o |}
    (raw, renamed)
  = Ok (raw, renamed).
Proof. intros Harg. unfold Joi.rename_step. cbn [Joi.from]. by rewrite Harg. Qed.

(** A schema whose only rename is that of [arg]: the query with [arg]
    supplied is validated as the query in which the named field holds the
    value of [arg]. *)
Lemma validate_arg_alias (named : string) ks (raw : gmap string Value)
    (a : Value) :
  named <> "arg" ->
  raw !! "arg" = Some a ->
  a <> VUndefined ->
  let schema :=
    Joi.object .> Joi.keys ks
    .> Joi.rename "arg" named
         {| Joi.override := true; Joi.ignoreUndefined := true |} in
  Joi.validate validate_options schema raw
  = Joi.validate validate_options schema (<[named := a]> (delete "arg" raw)).
Proof.
  intros Hne Harg Ha schema.
  unfold Joi.validate.
  cbn [schema Joi.rename Joi.keys Joi.object Joi.term_renames Joi.term_keys
       app Joi.rename_all].
  rewrite (rename_arg_supplied named raw a Hne Harg Ha).
  rewrite rename_arg_absent
    by (rewrite lookup_insert_ne by done; apply lookup_delete_eq).
  reflexivity.
Qed.

(** A key that is none of a literal list of declared keys. *)
Local Ltac not_a_key :=
  cbn [fmap list_fmap fst];
  repeat (apply not_elem_of_cons; split; [done|]);
  apply not_elem_of_nil.

Lemma validate_keys_other ks (value out q : gmap string Value) (k : string) :
  Joi.validate_keys ks value out = Ok q ->
  k ∉ ks.*1 ->
  q !! k = out !! k.
Proof.
  revert out. induction ks as [|[k' schema] ks IH]; intros out; cbn.
  - by intros [= <-].
  - intros Hq Hk. apply not_elem_of_cons in Hk as [Hne Hk].
    destruct (Joi.validate_value schema (get value k')) as [v|e];
      [|discriminate].
    destruct v; apply IH in Hq; try done; rewrite Hq;
      by rewrite ?lookup_delete_ne, ?lookup_insert_ne.
Qed.

(** The validated value of the first declared key is the validation of the
    value the query holds for it. *)
Lemma validate_keys_first (k : string) (schema : Joi.Schema) ks
    (value out q : gmap string Value) :
  k ∉ ks.*1 ->
  Joi.validate_keys ((k, schema) :: ks) value out = Ok q ->
  Joi.validate_value schema (get value k) = Ok (get q k).
Proof.
  intros Hk. cbn.
  destruct (Joi.validate_value schema (get value k)) as [v|e];
    [|discriminate].
  intros Hq. f_equal. unfold get at 1.
  destruct v; apply validate_keys_other with (k := k) in Hq; try done;
    rewrite Hq; by rewrite ?lookup_delete_eq, ?lookup_insert_eq.
Qed.

Lemma validate_first_key (k : string) (schema : Joi.Schema) ks renames
    (raw renamed_raw q : gmap string Value) (renamed : gset string) :
  k ∉ ks.*1 ->
  Joi.rename_all renames (raw, ∅) = Ok (renamed_raw, renamed) ->
  Joi.validate validate_options
    {| Joi.term_keys := (k, schema) :: ks; Joi.term_renames := renames |}
    raw = Ok q ->
  Joi.validate_value schema (get renamed_raw k) = Ok (get q k).
Proof.
  intros Hk Hren. unfold Joi.validate. cbn [Joi.term_renames Joi.term_keys].
  rewrite Hren. cbn [bindR validate_options Joi.stripUnknown
                     Joi.allowUnknown].
  destruct (Joi.validate_keys _ renamed_raw ∅) as [out|e] eqn:Hkeys;
    [|discriminate].
  cbn [bindR]. intros Hq.
  assert (out = q) as <- by (by destruct (Joi.unknown_keys _ _); injection Hq).
  by eapply validate_keys_first.
Qed.

(** The rename of [num-providers] succeeds whatever has been renamed before
    it, as long as that is not [numProviders], and leaves [cid] alone. *)
Lemma rename_num_providers (value : gmap string Value) :
  exists value',
    get value' "cid" = get value "cid"
    /\ forall renamed : gset string,
         "numProviders" ∉ renamed ->
         exists renamed',
           Joi.rename_step
             {| Joi.from := "num-providers"; Joi.to := "numProviders";
                Joi.options := {| Joi.override := true;
                                  Joi.ignoreUndefined := true |} |}
             (value, renamed)
           = Ok (value', renamed').
Proof.
  unfold Joi.rename_step.
  cbn [Joi.from Joi.to Joi.options Joi.override Joi.ignoreUndefined].
  destruct (value !! "num-providers") as [x|] eqn:Hx.
  - assert (x = VUndefined \/ x <> VUndefined) as [->|Hdef]
      by (destruct x; (by left) || (by right)).
    + exists value. split; [done|]. intros renamed _. by eexists.
    + exists (delete "num-providers" (<["numProviders" := x]> value)).
      split.
      * unfold get. by rewrite lookup_delete_ne, lookup_insert_ne.
      * intros renamed Hnot. eexists.
        rewrite bool_decide_eq_false_2 by done.
        rewrite andb_false_r. by destruct x.
  - exists value. split; [done|]. intros renamed _. by eexists.
Qed.

(** C10.  When a query supplies [arg], the named field it is an alias of is
    validated from the value of [arg], whatever the query supplies for the
    named field itself: the result of validation is that of the query in
    which the named field holds the value of [arg], and the validated named
    field is the validation of that value. *)
Theorem arg_overrides_named_field (raw : gmap string Value) (a : Value) :
  raw !! "arg" = Some a ->
  a <> VUndefined ->
  Forall
    (fun '(schema, named, field) =>
       forall b : Value,
         Joi.validate validate_options schema (<[named := b]> raw)
         = Joi.validate validate_options schema
             (<[named := a]> (delete "arg" raw))
         /\ forall q,
              Joi.validate validate_options schema (<[named := b]> raw)
              = Ok q ->
              Joi.validate_value field a = Ok (get q named))
    [(findPeerResource_validate_query, "peerId", Joi.string .> Joi.required);
     (findProvsResource_validate_query, "cid", Joi.cid .> Joi.required);
     (getResource_validate_query, "buffer", Joi.binary .> Joi.required);
     (provideResource_validate_query, "cid", Joi.cid .> Joi.required);
     (queryResource_validate_query, "peerId", Joi.string .> Joi.required)].
Proof.
  intros Harg Ha.
  assert (Hraw : forall named b,
             named <> "arg" ->
             (<[named := b]> raw) !! "arg" = Some a
             /\ <[named := a]> (delete "arg" (<[named := b]> raw))
                = <[named := a]> (delete "arg" raw)).
  { intros named b Hne. split; [by rewrite lookup_insert_ne|].
    by rewrite delete_insert_ne, insert_insert_eq. }
  assert (Hsingle : forall named field ks b,
             named <> "arg" ->
             named ∉ ks.*1 ->
             let schema :=
               Joi.object .> Joi.keys ((named, field) :: ks)
               .> Joi.rename "arg" named
                    {| Joi.override := true; Joi.ignoreUndefined := true |} in
             Joi.validate validate_options schema (<[named := b]> raw)
             = Joi.validate validate_options schema
                 (<[named := a]> (delete "arg" raw))
             /\ forall q,
                  Joi.validate validate_options schema (<[named := b]> raw)
                  = Ok q ->
                  Joi.validate_value field a = Ok (get q named)).
  { intros named field ks b Hne Hks schema.
    destruct (Hraw named b Hne) as [Hb Heq].
    pose proof (validate_arg_alias named ((named, field) :: ks) _ a Hne Hb Ha)
      as Halias.
    cbn zeta in Halias. fold schema in Halias. rewrite Heq in Halias.
    split; [exact Halias|].
    intros q Hq. rewrite Halias in Hq.
    set (value := <[named := a]> (delete "arg" raw)) in *.
    assert (Hren : Joi.rename_all (Joi.term_renames schema) (value, ∅)
                   = Ok (value, ∅)).
    { cbn [schema Joi.rename Joi.keys Joi.object Joi.term_renames app
           Joi.rename_all].
      rewrite rename_arg_absent; [done|].
      unfold value. rewrite lookup_insert_ne by done. apply lookup_delete_eq. }
    pose proof (validate_first_key named field ks _ _ _ q _ Hks Hren Hq)
      as Hv.
    unfold value, get at 1 in Hv. by rewrite lookup_insert_eq in Hv. }
  repeat apply Forall_cons_2; try apply Forall_nil_2; intros b.
  - apply (Hsingle "peerId"); [done|not_a_key].
  - destruct (Hraw "cid" b ltac:(done)) as [Hb Heq].
    set (value := <["cid" := a]> (delete "arg" raw)).
    destruct (rename_num_providers value) as (value' & Hcid & Hrename).
    destruct (Hrename {["cid"]}) as [r1 Hr1];
      [by apply not_elem_of_singleton|].
    destruct (Hrename ∅) as [r2 Hr2]; [apply not_elem_of_empty|].
    assert (Hleft :
      Joi.rename_all (Joi.term_renames findProvsResource_validate_query)
        (<["cid" := b]> raw, ∅) = Ok (value', r1)).
    { cbn [findProvsResource_validate_query Joi.rename Joi.keys Joi.object
           Joi.term_renames app Joi.rename_all].
      rewrite (rename_arg_supplied "cid" _ a ltac:(done) Hb Ha).
      rewrite Heq. fold value. cbn [bindR].
      rewrite (right_id_L ∅ (∪)).
      by rewrite Hr1. }
    assert (Hright :
      Joi.rename_all (Joi.term_renames findProvsResource_validate_query)
        (value, ∅) = Ok (value', r2)).
    { cbn [findProvsResource_validate_query Joi.rename Joi.keys Joi.object
           Joi.term_renames app Joi.rename_all].
      rewrite rename_arg_absent
        by (unfold value; rewrite lookup_insert_ne by done;
            apply lookup_delete_eq).
      cbn [bindR]. by rewrite Hr2. }
    split.
    + unfold Joi.validate. by rewrite Hleft, Hright.
    + intros q Hq.
      assert (Hks : "cid" ∉ [("numProviders",
                               Joi.number .> Joi.integer
                               .> Joi.default (VNum 20));
                              ("timeout", Joi.timeout)].*1) by not_a_key.
      pose proof (validate_first_key "cid" _ _ _ _ _ q _ Hks Hleft Hq) as Hv.
      rewrite Hcid in Hv. unfold value, get at 1 in Hv.
      by rewrite lookup_insert_eq in Hv.
  - apply (Hsingle "buffer"); [done|not_a_key].
  - apply (Hsingle "cid"); [done|not_a_key].
  - apply (Hsingle "peerId"); [done|not_a_key].
Qed.

End DhtProperties.

(** ** Cancellation of a streamed response *)

Section Cancellation.
Import Dht.
Context {S A : Type}.

(** Writing out a mapped sequence whose source counts its reads, under a
    signal that fires once [N] events have been produced: the pump writes
    the images of the [m] events still to come before [N], stops there, and
    has read the source [m] times. *)
Lemma pump_cancelled (source : It.AsyncIterable S A) (func : A -> Value)
    (cancelled : Signal) (N : nat) :
  (forall k, cancelled k = true <-> (N <= k)%nat) ->
  forall (m produced : nat) (s : S) (reads fuel : nat),
    (produced + m)%nat = N ->
    List.length (fst (It.pulls source m s)) = m ->
    (m < fuel)%nat ->
    exists s',
      pump fuel cancelled
        (It.yield_star (It.map (It.counted source) func)) produced (s, reads)
      = Some {| envelopes := func <$> fst (It.pulls source m s);
                status := Cancelled;
                final := (s', (reads + m)%nat) |}.
Proof.
  intros Hsignal.
  induction m as [|m IH]; intros produced s reads fuel HN Hlen Hfuel.
  - destruct fuel as [|fuel]; [lia|]. cbn [pump].
    assert (cancelled produced = true) as -> by (apply Hsignal; lia).
    exists s. cbn. do 2 f_equal. f_equal. lia.
  - destruct fuel as [|fuel]; [lia|]. cbn [pump].
    destruct (cancelled produced) eqn:Hc; [apply Hsignal in Hc; lia|].
    cbn [It.pulls] in Hlen |- *.
    cbn [It.next It.yield_star It.map It.counted].
    destruct (It.next source s) as [[a| |e] s1]; cbn in Hlen; try discriminate.
    destruct (It.pulls source m s1) as [l e] eqn:Hpulls.
    cbn in Hlen. injection Hlen as Hlen.
    destruct (IH (Datatypes.S produced) s1 (Datatypes.S reads) fuel)
      as [s' ->]; [lia|by rewrite Hpulls|lia|].
    exists s'. rewrite Hpulls. cbn. do 2 f_equal. f_equal. lia.
Qed.

End Cancellation.

(** C7.  For a streaming call (find-providers, query) whose cancellation
    signal fires once [N] events have been produced, with the engine able to
    produce at least [N]: writing out the response ends as cancelled with
    exactly [N] envelopes written, and the engine's sequence has been read
    [N] times in all. *)
Theorem cancellation_stops_reads {PeerId Multiaddr Bytes S : Type}
    `{Dht.ToString PeerId} `{Dht.ToString Multiaddr}
    (request : @Dht.Request PeerId Multiaddr Bytes (S * nat))
    (w : Dht.World) (N fuel : nat) :
  let ipfs := Dht.server_app_ipfs request in
  let cancelled_after (handler : _ -> M Dht.World Dht.Thrown Dht.Response) :=
    exists body written,
      fst (handler request w) = Ok (Dht.Stream body)
      /\ Dht.drain fuel body = Some written
      /\ Dht.status written = Dht.Cancelled
      /\ List.length (Dht.envelopes written) = N
      /\ snd (Dht.final written) = N in
  (forall k, Dht.app_signal request k = true <-> (N <= k)%nat) ->
  (N < fuel)%nat ->
  (forall provs : It.AsyncIterable S (@Dht.PeerInfo PeerId Multiaddr),
     Dht.dht_findProvs ipfs (get (Dht.query request) "cid")
       {| Dht.numProviders := Some (get (Dht.query request) "numProviders");
          Dht.signal := Dht.app_signal request;
          Dht.timeout := get (Dht.query request) "timeout" |}
       = It.counted provs ->
     List.length (fst (It.take N provs)) = N ->
     cancelled_after Dht.findProvsResource_handler)
  /\ (forall peers : It.AsyncIterable S (@Dht.PeerInfo PeerId Multiaddr),
        Dht.dht_query ipfs (get (Dht.query request) "peerId")
          {| Dht.numProviders := None;
             Dht.signal := Dht.app_signal request;
             Dht.timeout := get (Dht.query request) "timeout" |}
          = It.counted peers ->
        List.length (fst (It.take N peers)) = N ->
        cancelled_after Dht.queryResource_handler).
Proof.
  intros ipfs cancelled_after Hsignal Hfuel.
  split.
  - intros provs Hprovs Hlen.
    unfold cancelled_after, Dht.findProvsResource_handler, Dht.streamResponse,
      Dht.findProvsResource_source, bind, Dht.ipfs_dht_findProvs, ret.
    fold ipfs. rewrite Hprovs. cbn [fst].
    match goal with
    | |- context [It.map _ ?func] =>
        destruct (pump_cancelled provs func _ N Hsignal N O (It.start provs) O
                    fuel eq_refl Hlen Hfuel) as [s' Hpump]
    end.
    do 2 eexists. split; [reflexivity|].
    split; [exact Hpump|].
    cbn [Dht.status Dht.envelopes Dht.final snd].
    by rewrite length_fmap.
  - intros peers Hpeers Hlen.
    unfold cancelled_after, Dht.queryResource_handler, Dht.streamResponse,
      Dht.queryResource_source, bind, Dht.ipfs_dht_query, ret.
    fold ipfs. rewrite Hpeers. cbn [fst].
    match goal with
    | |- context [It.map _ ?func] =>
        destruct (pump_cancelled peers func _ N Hsignal N O (It.start peers) O
                    fuel eq_refl Hlen Hfuel) as [s' Hpump]
    end.
    do 2 eexists. split; [reflexivity|].
    split; [exact Hpump|].
    cbn [Dht.status Dht.envelopes Dht.final snd].
    by rewrite length_fmap.
Qed.

(** ** The theorems on the stub engine *)

Example findProvs_two_providers :
  Dht.stream_envelopes 5
    (Dht.findProvsResource_source
       (Sample.request (Sample.engine [Sample.peerA; Sample.peerB] None)
          Sample.never
          [("cid", VCid "QmContent"); ("numProviders", VNum 20)])
       tt [])
  = [VObj {[ "Responses" := VArr [VObj {[
               "ID" := VStr "QmPeerA";
               "Addrs" := VArr [VStr "/ip4/10.0.0.1/tcp/4001"] ]}];
             "Type" := VNum 4 ]};
     VObj {[ "Responses" := VArr [VObj {[
               "ID" := VStr "QmPeerB"; "Addrs" := VArr [] ]}];
             "Type" := VNum 4 ]}].
Proof. vm_compute. reflexivity. Qed.

Lemma findPeer_single_envelope_witness :
  let request :=
    Sample.request (Sample.engine [] None) Sample.never
      [("arg", VStr "QmPeerA"); ("timeout", VStr "1s"); ("extra", VNum 7)] in
  let validated : gmap string Value :=
    {[ "peerId" := VStr "QmPeerA"; "timeout" := VNum 1000 ]} in
  let options :=
    {| Dht.numProviders := None; Dht.signal := Sample.never;
       Dht.timeout := VNum 1000 |} in
  (Joi.validate Dht.validate_options Dht.findPeerResource_validate_query
     (Dht.query request) = Ok validated
   /\ Dht.dht_findPeer (Dht.server_app_ipfs request) (VStr "QmPeerA") options
      = Ok Sample.peerA)
  /\ Dht.serve Dht.findPeerResource request []
     = (Ok (Dht.Json (VObj {[
          "Responses" := VArr [VObj {[
            "ID" := VStr "QmPeerA";
            "Addrs" := VArr [VStr "/ip4/10.0.0.1/tcp/4001"] ]}];
          "Type" := VNum 2 ]})),
        [Dht.CallFindPeer (VStr "QmPeerA") options]).
Proof.
  intros request validated options.
  assert (Hvalid : Joi.validate Dht.validate_options
                     Dht.findPeerResource_validate_query (Dht.query request)
                   = Ok validated) by (vm_compute; reflexivity).
  split; [split; [exact Hvalid|reflexivity]|].
  exact (findPeer_single_envelope request [] validated Sample.peerA
           Hvalid eq_refl).
Defined.


Lemma put_validated_before_engine_witness :
  let request :=
    Sample.request (Sample.engine [] None) Sample.never
      [("arg", VArr [VStr "key"; VStr "value"; VStr "more"])] in
  Dht.two_binary_items (get (Dht.query request) "arg") = false
  /\ exists message,
       Dht.serve Dht.putResource request []
       = (Throw (Dht.Boomed (Dht.badRequest message)), []).
Proof.
  intros request.
  split; [reflexivity|].
  exact (put_validated_before_engine request [] eq_refl).
Defined.

Lemma query_empty_sequence_witness :
  let request :=
    Sample.request (Sample.engine [] None) Sample.never
      [("peerId", VStr "QmPeerA")] in
  let options :=
    {| Dht.numProviders := None; Dht.signal := Sample.never;
       Dht.timeout := VUndefined |} in
  fst (It.next (It.of_list [] None) (It.start (It.of_list [] None)))
    = @It.Done (@Dht.PeerInfo string string)
  /\ exists chunks,
       Dht.queryResource_source request tt []
       = (Ok chunks, [Dht.CallQuery (VStr "QmPeerA") options])
       /\ It.take 3 chunks = ([], It.Finished).
Proof.
  intros request options.
  split; [reflexivity|].
  exact (query_empty_sequence request [] 2 eq_refl).
Defined.

Lemma arg_overrides_named_field_witness :
  let raw : gmap string Value :=
    {[ "arg" := VStr "QmFromArg"; "timeout" := VStr "1s" ]} in
  (raw !! "arg" = Some (VStr "QmFromArg") /\ VStr "QmFromArg" <> VUndefined)
  /\ Joi.validate Dht.validate_options Dht.findPeerResource_validate_query
       (<["peerId" := VStr "QmNamed"]> raw)
     = Ok {[ "peerId" := VStr "QmFromArg"; "timeout" := VNum 1000 ]}.
Proof.
  intros raw.
  split; [split; [reflexivity|discriminate]|].
  pose proof (arg_overrides_named_field raw (VStr "QmFromArg")
                eq_refl ltac:(discriminate))
    as Hall.
  apply Forall_cons_1 in Hall as [Hfind _].
  destruct (Hfind (VStr "QmNamed")) as [-> _].
  vm_compute. reflexivity.
Defined.

Lemma cancellation_stops_reads_witness :
  let events := [Sample.peerA; Sample.peerB; Sample.peerC] in
  let request :=
    Sample.request (Sample.countingEngine events) (Sample.after 2)
      [("cid", VCid "QmContent"); ("peerId", VStr "QmPeerA")] in
  ((forall k, Sample.after 2 k = true <-> (2 <= k)%nat)
   /\ (2 < 5)%nat
   /\ List.length (fst (It.take 2 (It.of_list events None))) = 2%nat)
  /\ Forall
       (fun handler =>
          exists body written,
            fst (handler request []) = Ok (Dht.Stream body)
            /\ Dht.drain 5 body = Some written
            /\ Dht.status written = Dht.Cancelled
            /\ List.length (Dht.envelopes written) = 2%nat
            /\ snd (Dht.final written) = 2%nat)
       [Dht.findProvsResource_handler; Dht.queryResource_handler].
Proof.
  intros events request.
  assert (Hsignal : forall k, Sample.after 2 k = true <-> (2 <= k)%nat).
  { intros k. unfold Sample.after. apply Nat.leb_le. }
  split; [split; [exact Hsignal|split; [lia|reflexivity]]|].
  destruct (cancellation_stops_reads request [] 2 5 Hsignal ltac:(lia))
    as [Hprovs Hpeers].
  apply Forall_cons_2; [|apply Forall_cons_2; [|apply Forall_nil_2]].
  - exact (Hprovs (It.of_list events None) eq_refl eq_refl).
  - exact (Hpeers (It.of_list events None) eq_refl eq_refl).
Defined.

(** On get, an engine failure is not translated: the handler throws the
    engine's error itself, and no Boom error. *)
Lemma get_failure_not_translated :
  fst (Dht.getResource_handler
         (Sample.request (Sample.engine [] (Some Sample.failure)) Sample.never
            [("buffer", VBuf "key")]) [])
  = Throw (Dht.Raw Sample.failure)
  /\ fst (Dht.getResource_handler
            (Sample.request (Sample.engine [] (Some Sample.failure))
               Sample.never [("buffer", VBuf "key")]) [])
     <> Throw (Dht.Boomed
                 (Dht.boomify Sample.failure (Error_toString Sample.failure))).
Proof. split; [reflexivity|discriminate]. Qed.


(** The envelope query emits for a peer has no [Type]: it does not satisfy
    the invariant of the wire envelope. *)
Lemma query_envelope_without_discriminator :
  Dht.stream_envelopes 1
    (Dht.queryResource_source
       (Sample.request (Sample.engine [Sample.peerA] None) Sample.never
          [("peerId", VStr "QmTarget")])
       tt [])
  = [VObj {[ "ID" := VStr "QmPeerA" ]}]
  /\ ~ Dht.well_formed_envelope (VObj {[ "ID" := VStr "QmPeerA" ]}).
Proof.
  split; [vm_compute; reflexivity|].
  intros [[t Ht] _]. vm_compute in Ht. discriminate.
Qed.

(** ** Further properties of the DHT handlers *)

Section MoreDhtProperties.
Import Dht.
Context {PeerId Multiaddr Bytes G : Type}.
Context `{ToString PeerId} `{ToString Multiaddr} `{ToString Bytes}.
Context `{Joi.Coercions}.
Implicit Types (request : @Request PeerId Multiaddr Bytes G) (w : World).

(** X1.  For every query request the handler answers with a streamed
    response, having called the engine once with the request's peer id,
    signal and timeout; for every number [n] of pulls, the envelopes that
    come out of that response are [{ ID: id.toString() }], one per event the
    [n] pulls consume from the engine's sequence and in the order produced,
    and the run ends the way the engine's does. *)
Theorem query_envelope_per_event request w n :
  let options :=
    {| numProviders := None; signal := app_signal request;
       timeout := get (query request) "timeout" |} in
  let consumed :=
    It.take n (dht_query (server_app_ipfs request)
                 (get (query request) "peerId") options) in
  exists body,
    handler queryResource request w
      = (Ok (Stream body),
         w ++ [CallQuery (get (query request) "peerId") options])
    /\ It.take n (chunks body)
       = ((fun event => VObj {[ "ID" := VStr (toString (id event)) ]})
            <$> fst consumed,
          snd consumed)
    /\ List.length (fst (It.take n (chunks body)))
       = List.length (fst consumed).
Proof.
  intros options consumed.
  eexists. split; [reflexivity|].
  cbn [chunks]. rewrite take_pipe_map. fold options consumed.
  assert (Hmap : forall (f g : @PeerInfo PeerId Multiaddr -> Value)
                        (l : list (@PeerInfo PeerId Multiaddr)),
             (forall x, f x = g x) -> f <$> l = g <$> l).
  { intros f g l Hfg. induction l; cbn; [done|]. by rewrite Hfg, IHl. }
  split.
  - f_equal. apply Hmap. by intros [i a].
  - cbn [fst]. by rewrite length_fmap.
Qed.

(** X2.  A get request that passes validation is answered, when the engine
    returns [res], with the single envelope [{ Extra: res.toString(),
    Type: 5 }]; when the engine throws, the error leaves the route as it is.
    Either way the engine has been called exactly once, with the validated
    buffer and the request's signal and validated timeout. *)
Theorem get_value_envelope request w (validated : gmap string Value) :
  let options :=
    {| numProviders := None; signal := app_signal request;
       timeout := get validated "timeout" |} in
  Joi.validate validate_options getResource_validate_query (query request)
    = Ok validated ->
  serve getResource request w
    = (match dht_get (server_app_ipfs request) (get validated "buffer")
               options with
       | Ok res =>
           Ok (Json (VObj {[ "Extra" := VStr (toString res);
                             "Type" := VNum 5 ]}))
       | Throw err => Throw (Raw err)
       end,
       w ++ [CallGet (get validated "buffer") options]).
Proof.
  intros options Hvalid.
  unfold serve. cbn [getResource options_validate_options
                     options_validate_query handler].
  rewrite Hvalid.
  unfold getResource_handler, bind, uncaught, try_catch, ipfs_dht_get, throw,
    ret.
  cbn [app_signal server_app_ipfs query]. fold options.
  by destruct (dht_get _ _ options).
Qed.

(** The schema of put accepts two textual items and turns them into
    buffers, keeping their order. *)
Lemma put_validate (raw : gmap string Value) (k v : string) (t : Value) :
  get raw "arg" = VArr [VStr k; VStr v] ->
  Joi.validate_value Joi.timeout (get raw "timeout") = Ok t ->
  exists validated,
    Joi.validate validate_options putResource_validate_query raw
      = Ok validated
    /\ get validated "arg" = VArr [VBuf k; VBuf v]
    /\ get validated "timeout" = t.
Proof.
  intros Harg Ht.
  unfold Joi.validate.
  cbn [putResource_validate_query Joi.keys Joi.object Joi.term_keys
       Joi.term_renames app Joi.rename_all bindR Joi.validate_keys
       validate_options Joi.stripUnknown Joi.allowUnknown].
  rewrite Harg.
  change (Joi.validate_value
            (Joi.array .> Joi.length 2 .> Joi.items Joi.binary
               .> Joi.required)
            (VArr [VStr k; VStr v]))
    with (@Ok string _ (VArr [VBuf k; VBuf v])).
  cbn iota. rewrite Ht.
  set (out := <["arg" := VArr [VBuf k; VBuf v]]> (∅ : gmap string Value)).
  assert (Hout : get out "arg" = VArr [VBuf k; VBuf v]) by reflexivity.
  exists (match t with VUndefined => delete "timeout" out
                  | _ => <["timeout" := t]> out end).
  split; [|split].
  - destruct t; cbn [bindR]; by destruct (Joi.unknown_keys _ _).
  - unfold get in *. destruct t;
      by rewrite ?lookup_delete_ne, ?lookup_insert_ne.
  - unfold get. destruct t;
      by rewrite ?lookup_delete_eq, ?lookup_insert_eq.
Qed.

(** X3.  A put request whose [arg] holds two textual items, and whose
    timeout (if any) is accepted, reaches the engine exactly once:
    [ipfs.dht.put] is called with the first item as key and the second as
    value, both as buffers, and with the request's signal and validated
    timeout.  The response is empty when the engine returns, and the
    engine's error leaves the route as it is when it throws. *)
Theorem put_reaches_engine request w (k v : string) (t : Value) :
  let options :=
    {| numProviders := None; signal := app_signal request; timeout := t |} in
  get (query request) "arg" = VArr [VStr k; VStr v] ->
  Joi.validate_value Joi.timeout (get (query request) "timeout") = Ok t ->
  serve putResource request w
    = (match dht_put (server_app_ipfs request) (VBuf k) (VBuf v) options with
       | Ok _ => Ok Empty
       | Throw err => Throw (Raw err)
       end,
       w ++ [CallPut (VBuf k) (VBuf v) options]).
Proof.
  intros options Harg Ht.
  destruct (put_validate _ k v t Harg Ht) as (validated & Hv & Hvarg & Hvt).
  unfold serve. cbn [putResource options_validate_options
                     options_validate_query handler].
  rewrite Hv.
  unfold putResource_handler, bind, uncaught, try_catch, lift, ipfs_dht_put,
    throw, ret.
  cbn [app_signal server_app_ipfs query].
  rewrite Hvarg, Hvt. cbn [destructure2 nth]. fold options.
  by destruct (dht_put _ _ _ options) as [[]|e].
Qed.

(** X4.  No handler calls the engine more than once, nor any operation but
    its own: whether the engine returns or throws, the record of calls grows
    by the one call of the handler's verb; put makes no call at all when its
    [arg] cannot be taken apart. *)
Theorem one_engine_call request w :
  let q := query request in
  let options numProviders :=
    {| numProviders := numProviders; signal := app_signal request;
       timeout := get q "timeout" |} in
  snd (handler findPeerResource request w)
    = w ++ [CallFindPeer (get q "peerId") (options None)]
  /\ snd (handler findProvsResource request w)
     = w ++ [CallFindProvs (get q "cid")
               (options (Some (get q "numProviders")))]
  /\ snd (handler getResource request w)
     = w ++ [CallGet (get q "buffer") (options None)]
  /\ snd (handler provideResource request w)
     = w ++ [CallProvide (get q "cid") (options None)]
  /\ snd (handler putResource request w)
     = match destructure2 (get q "arg") with
       | Ok (key, value) => w ++ [CallPut key value (options None)]
       | Throw _ => w
       end
  /\ snd (handler queryResource request w)
     = w ++ [CallQuery (get q "peerId") (options None)].
Proof.
  intros q options.
  split; [|split; [|split; [|split; [|split]]]].
  - cbn [handler findPeerResource].
    unfold findPeerResource_handler, bind, try_catch, ipfs_dht_findPeer, throw,
      ret.
    destruct (dht_findPeer _ _ _) as [res|err]; [done|].
    by destruct (decide _).
  - reflexivity.
  - cbn [handler getResource].
    unfold getResource_handler, bind, uncaught, try_catch, ipfs_dht_get, throw,
      ret.
    by destruct (dht_get _ _ _).
  - cbn [handler provideResource].
    unfold provideResource_handler, bind, uncaught, try_catch,
      ipfs_dht_provide, throw, ret.
    by destruct (dht_provide _ _ _).
  - cbn [handler putResource].
    unfold putResource_handler, bind, uncaught, try_catch, lift, ipfs_dht_put,
      throw, ret. fold q.
    destruct (destructure2 (get q "arg")) as [[key value]|err]; [|done].
    by destruct (dht_put _ _ _ _).
  - reflexivity.
Qed.

(** A buffer is taken apart into its first two bytes, a string into its
    first two code points. *)
Example destructure2_buffer :
  destructure2 (VBuf "ab") = Ok (VNum 97, VNum 98)
  /\ destructure2 (VBuf "a") = Ok (VNum 97, VUndefined)
  /\ destructure2 (VStr "ab") = Ok (VStr "a", VStr "b")
  /\ destructure2 (VStr "") = Ok (VUndefined, VUndefined).
Proof. repeat split. Qed.

End MoreDhtProperties.

(** ** Further properties of validation *)

Section MoreValidation.
Import Dht.
Context `{Joi.Coercions}.

(** A rename leaves every key alone that is neither its source nor its
    target. *)
Lemma rename_step_other (r : Joi.Rename) (value value' : gmap string Value)
    (renamed renamed' : gset string) (k : string) :
  Joi.rename_step r (value, renamed) = Ok (value', renamed') ->
  k <> Joi.from r -> k <> Joi.to r ->
  value' !! k = value !! k.
Proof.
  unfold Joi.rename_step. intros Hstep Hfrom Hto.
  destruct (value !! Joi.from r) as [x|]; [|by injection Hstep as <- _].
  destruct (_ && Joi.ignoreUndefined _); [by injection Hstep as <- _|].
  destruct (bool_decide _); [discriminate|].
  destruct (_ && negb _); [discriminate|].
  injection Hstep as <- _.
  rewrite lookup_delete_ne by done.
  destruct x; by rewrite ?lookup_delete_ne, ?lookup_insert_ne.
Qed.

(** A rename commutes with setting a key that is neither its source nor its
    target. *)
Lemma rename_step_insert (r : Joi.Rename) (value : gmap string Value)
    (renamed : gset string) (k : string) (v : Value) :
  k <> Joi.from r -> k <> Joi.to r ->
  Joi.rename_step r (<[k := v]> value, renamed)
  = bindR (Joi.rename_step r (value, renamed))
      (fun '(value', renamed') => Ok (<[k := v]> value', renamed')).
Proof.
  intros Hfrom Hto. unfold Joi.rename_step.
  rewrite !lookup_insert_ne by done.
  destruct (value !! Joi.from r) as [x|]; [|done].
  destruct (_ && Joi.ignoreUndefined _); [done|].
  destruct (bool_decide _); [done|].
  destruct (_ && negb _); [done|].
  cbn [bindR]. do 2 f_equal.
  destruct x;
    rewrite ?(insert_insert_ne _ (Joi.to r) k) by done;
    by rewrite ?delete_insert_ne by done.
Qed.

Lemma rename_all_insert (rs : list Joi.Rename) (value : gmap string Value)
    (renamed : gset string) (k : string) (v : Value) :
  Forall (fun r => k <> Joi.from r /\ k <> Joi.to r) rs ->
  Joi.rename_all rs (<[k := v]> value, renamed)
  = bindR (Joi.rename_all rs (value, renamed))
      (fun '(value', renamed') => Ok (<[k := v]> value', renamed')).
Proof.
  intros Hrs. revert value renamed.
  induction Hrs as [|r rs [Hfrom Hto] _ IH]; intros value renamed; [done|].
  cbn [Joi.rename_all]. rewrite rename_step_insert by done.
  destruct (Joi.rename_step r (value, renamed)) as [[value' renamed']|e];
    [|done].
  cbn [bindR]. apply IH.
Qed.

(** The declared keys are validated from their own values only. *)
Lemma validate_keys_insert (ks : list (string * Joi.Schema))
    (value out : gmap string Value) (k : string) (v : Value) :
  k ∉ ks.*1 ->
  Joi.validate_keys ks (<[k := v]> value) out = Joi.validate_keys ks value out.
Proof.
  revert out. induction ks as [|[k' schema] ks IH]; intros out Hk; [done|].
  apply not_elem_of_cons in Hk as [Hne Hk]. cbn [Joi.validate_keys].
  unfold get at 1. rewrite lookup_insert_ne by done. fold (get value k').
  destruct (Joi.validate_value schema (get value k')) as [x|e]; [|done].
  destruct x; by apply IH.
Qed.

Lemma validate_insert_unknown (schema : Joi.ObjectSchema)
    (raw : gmap string Value) (k : string) (v : Value) :
  k ∉ (Joi.term_keys schema).*1 ->
  Forall (fun r => k <> Joi.from r /\ k <> Joi.to r)
    (Joi.term_renames schema) ->
  Joi.validate validate_options schema (<[k := v]> raw)
  = Joi.validate validate_options schema raw.
Proof.
  intros Hk Hrs. unfold Joi.validate.
  rewrite rename_all_insert by done.
  destruct (Joi.rename_all _ (raw, ∅)) as [[value' renamed']|e]; [|done].
  cbn [bindR validate_options Joi.stripUnknown Joi.allowUnknown].
  rewrite validate_keys_insert by done.
  destruct (Joi.validate_keys _ value' ∅) as [out|e]; [|done].
  cbn [bindR].
  by destruct (Joi.unknown_keys schema (<[k := v]> value')),
              (Joi.unknown_keys schema value').
Qed.

(** X5.  A field the schema does not know is accepted and discarded: for
    each of the six resources, adding to a query a field that is neither a
    declared key nor one of the aliases [arg] and [num-providers] changes
    nothing of the outcome of validation, be it the validated query or the
    failure. *)
Theorem unknown_field_ignored (raw : gmap string Value) (k : string)
    (v : Value) :
  k <> "arg" -> k <> "num-providers" ->
  Forall
    (fun schema =>
       k ∉ (Joi.term_keys schema).*1 ->
       Joi.validate validate_options schema (<[k := v]> raw)
       = Joi.validate validate_options schema raw)
    [findPeerResource_validate_query; findProvsResource_validate_query;
     getResource_validate_query; provideResource_validate_query;
     putResource_validate_query; queryResource_validate_query].
Proof.
  intros Harg Hnum.
  repeat apply Forall_cons_2; try apply Forall_nil_2; intros Hk;
    apply validate_insert_unknown; try done;
    cbn in Hk |- *;
    repeat (apply Forall_cons_2; [split; [done|]|]); try apply Forall_nil_2;
    intros ->; apply Hk; set_solver.
Qed.

(** X6.  The validated query holds declared keys only: whatever else the
    request supplied (the aliases included) is not handed to the handler. *)
Theorem validated_keys_declared (schema : Joi.ObjectSchema)
    (raw validated : gmap string Value) (k : string) :
  Joi.validate validate_options schema raw = Ok validated ->
  is_Some (validated !! k) ->
  k ∈ (Joi.term_keys schema).*1.
Proof.
  unfold Joi.validate.
  destruct (Joi.rename_all _ _) as [[value renamed]|e]; [|discriminate].
  cbn [bindR validate_options Joi.stripUnknown Joi.allowUnknown].
  destruct (Joi.validate_keys _ value ∅) as [out|e] eqn:Hkeys;
    [|discriminate].
  cbn [bindR]. intros Hq.
  assert (out = validated) as <-
    by (by destruct (Joi.unknown_keys _ _); injection Hq).
  clear Hq. intros Hsome.
  assert (Hgen : forall ks (out0 out1 : gmap string Value),
             Joi.validate_keys ks value out0 = Ok out1 ->
             is_Some (out1 !! k) -> k ∈ ks.*1 \/ is_Some (out0 !! k)).
  { induction ks as [|[k' sch] ks IH]; intros out0 out1; cbn.
    - intros [= <-]. by right.
    - destruct (Joi.validate_value sch (get value k')) as [x|e];
        [|discriminate].
      intros Hrec Hk.
      assert (Hstep : forall out0', Joi.validate_keys ks value out0' = Ok out1 ->
                (is_Some (out0' !! k) -> k = k' \/ is_Some (out0 !! k)) ->
                k ∈ k' :: ks.*1 \/ is_Some (out0 !! k)).
      { intros out0' Hrec' Hin.
        destruct (IH _ _ Hrec' Hk) as [Hks|Hout].
        - left. by right.
        - destruct (Hin Hout) as [->|Hold]; [left; by left|by right]. }
      destruct (decide (k = k')) as [->|Hne]; [left; by left|].
      destruct x; eapply Hstep; try exact Hrec; intros Hin; right;
        by rewrite ?lookup_delete_ne, ?lookup_insert_ne in Hin. }
  destruct (Hgen _ _ _ Hkeys Hsome) as [Hin|[x Hx]]; [done|].
  by rewrite lookup_empty in Hx.
Qed.

(** A schema whose first key is required fails on a query in which that key
    is still undefined once the renames are done. *)
Lemma validate_required_missing (named : string) (field : Joi.Schema) ks rs
    (raw : gmap string Value) (code : string) :
  (forall value renamed,
     Joi.rename_all rs (raw, ∅) = Ok (value, renamed) ->
     get value named = VUndefined) ->
  Joi.validate_value field VUndefined = Throw code ->
  exists err,
    Joi.validate validate_options
      {| Joi.term_keys := (named, field) :: ks; Joi.term_renames := rs |} raw
    = Throw err.
Proof.
  intros Hren Hfield. unfold Joi.validate. cbn [Joi.term_renames Joi.term_keys].
  destruct (Joi.rename_all rs (raw, ∅)) as [[value renamed]|e] eqn:Hrs;
    [|by eexists].
  cbn [bindR Joi.validate_keys]. rewrite (Hren _ _ eq_refl), Hfield.
  by eexists.
Qed.

(** Any value is taken apart from one of its kinds. *)
Lemma undefined_or_not (x : Value) : x = VUndefined \/ x <> VUndefined.
Proof. destruct x; (by left) || (by right). Qed.

End MoreValidation.

Section MoreRoutes.
Import Dht.
Context {PeerId Multiaddr Bytes G : Type}.
Context `{ToString PeerId} `{ToString Multiaddr} `{ToString Bytes}.
Context `{Joi.Coercions}.
Implicit Types (request : @Request PeerId Multiaddr Bytes G) (w : World).

Lemma serve_validation_failure (resource : @Resource PeerId Multiaddr Bytes G)
    request w err :
  Joi.validate (options_validate_options resource)
    (options_validate_query resource) (query request) = Throw err ->
  exists message,
    serve resource request w = (Throw (Boomed (badRequest message)), w).
Proof. intros Herr. unfold serve. rewrite Herr. by eexists. Qed.

(** X7.  A request that supplies neither [arg] nor the named field it is an
    alias of (peerId for find-peer and query, cid for find-providers and
    provide, buffer for get) is answered with a bad request, and the engine
    is not called. *)
Theorem required_field_missing request w :
  query request !! "arg" = None ->
  Forall
    (fun '(resource, named) =>
       query request !! named = None ->
       exists message,
         serve resource request w
         = (Throw (Boomed (badRequest message)), w))
    [(findPeerResource, "peerId"); (findProvsResource, "cid");
     (getResource, "buffer"); (provideResource, "cid");
     (queryResource, "peerId")].
Proof.
  intros Harg.
  set (alias named :=
         [{| Joi.from := "arg"; Joi.to := named;
             Joi.options := {| Joi.override := true;
                               Joi.ignoreUndefined := true |} |}]).
  assert (Hsingle : forall named value renamed,
             query request !! named = None ->
             Joi.rename_all (alias named) (query request, ∅)
               = Ok (value, renamed) ->
             get value named = VUndefined).
  { intros named value renamed Hnamed. cbn [alias Joi.rename_all].
    rewrite rename_arg_absent by done. cbn [bindR].
    intros [= <- _]. unfold get. by rewrite Hnamed. }
  repeat apply Forall_cons_2; try apply Forall_nil_2; intros Hnamed.
  - destruct (validate_required_missing "peerId"
                (Joi.string .> Joi.required) [("timeout", Joi.timeout)]
                (alias "peerId") (query request) "any.required"
                (fun v r => Hsingle "peerId" v r Hnamed) eq_refl)
      as [err Herr].
    by eapply serve_validation_failure.
  - assert (Hrenames : forall value renamed,
               Joi.rename_all
                 (Joi.term_renames findProvsResource_validate_query)
                 (query request, ∅) = Ok (value, renamed) ->
               get value "cid" = VUndefined).
    { cbn [findProvsResource_validate_query Joi.rename Joi.keys Joi.object
           Joi.term_renames app Joi.rename_all].
      intros value renamed. rewrite rename_arg_absent by done. cbn [bindR].
      destruct (Joi.rename_step _ _) as [[value' renamed']|e] eqn:Hstep;
        [|discriminate].
      intros [= <- _]. unfold get.
      by rewrite (rename_step_other _ _ _ _ _ "cid" Hstep), Hnamed. }
    destruct (validate_required_missing "cid" (Joi.cid .> Joi.required)
                [("numProviders",
                  Joi.number .> Joi.integer .> Joi.default (VNum 20));
                 ("timeout", Joi.timeout)]
                (Joi.term_renames findProvsResource_validate_query)
                (query request) "any.required" Hrenames eq_refl)
      as [err Herr].
    by eapply serve_validation_failure.
  - destruct (validate_required_missing "buffer"
                (Joi.binary .> Joi.required) [("timeout", Joi.timeout)]
                (alias "buffer") (query request) "any.required"
                (fun v r => Hsingle "buffer" v r Hnamed) eq_refl)
      as [err Herr].
    by eapply serve_validation_failure.
  - destruct (validate_required_missing "cid"
                (Joi.cid .> Joi.required) [("timeout", Joi.timeout)]
                (alias "cid") (query request) "any.required"
                (fun v r => Hsingle "cid" v r Hnamed) eq_refl)
      as [err Herr].
    by eapply serve_validation_failure.
  - destruct (validate_required_missing "peerId"
                (Joi.string .> Joi.required) [("timeout", Joi.timeout)]
                (alias "peerId") (query request) "any.required"
                (fun v r => Hsingle "peerId" v r Hnamed) eq_refl)
      as [err Herr].
    by eapply serve_validation_failure.
Qed.

End MoreRoutes.

Section MoreAliases.
Import Dht.
Context `{Joi.Coercions}.

(** Equality of two maps built from inserts and deletes at literal keys. *)
Local Ltac map_cases :=
  apply map_eq; intros ?;
  repeat (rewrite lookup_insert || rewrite lookup_delete);
  repeat case_decide; congruence.

(** Among keys declared once, each is validated from the value the query
    holds for it. *)
Lemma validate_keys_lookup (ks : list (string * Joi.Schema))
    (value out q : gmap string Value) (k : string) (schema : Joi.Schema) :
  NoDup ks.*1 ->
  (k, schema) ∈ ks ->
  Joi.validate_keys ks value out = Ok q ->
  Joi.validate_value schema (get value k) = Ok (get q k).
Proof.
  revert out. induction ks as [|[k' schema'] ks IH]; intros out Hnodup Hin.
  - by apply elem_of_nil in Hin.
  - cbn [fmap list_fmap fst] in Hnodup. apply NoDup_cons in Hnodup as [Hk' Hks].
    apply elem_of_cons in Hin as [[= -> ->]|Hin].
    + by apply validate_keys_first.
    + cbn [Joi.validate_keys].
      destruct (Joi.validate_value schema' (get value k')) as [x|e];
        [|discriminate].
      destruct x; by apply IH.
Qed.

(** The rename of [num-providers], when it is supplied, writes its value
    over [numProviders]. *)
Lemma rename_num_providers_supplied (value : gmap string Value)
    (renamed : gset string) (a : Value) :
  value !! "num-providers" = Some a ->
  a <> VUndefined ->
  "numProviders" ∉ renamed ->
  Joi.rename_step
    {| Joi.from := "num-providers"; Joi.to := "numProviders";
       Joi.options := {| Joi.override := true;
                         Joi.ignoreUndefined := true |} |}
    (value, renamed)
  = Ok (delete "num-providers" (<["numProviders" := a]> value),
        {["numProviders"]} ∪ renamed).
Proof.
  intros Ha Hdef Hnot. unfold Joi.rename_step.
  cbn [Joi.from Joi.to Joi.options Joi.override Joi.ignoreUndefined].
  rewrite Ha, bool_decide_eq_false_2 by done.
  rewrite andb_false_r. by destruct a.
Qed.

Lemma rename_num_providers_absent (value : gmap string Value)
    (renamed : gset string) (o : Joi.RenameOptions) :
  value !! "num-providers" = None ->
  Joi.rename_step
    {| Joi.from := "num-providers"; Joi.to := "numProviders";
       Joi.options := o |}
    (value, renamed)
  = Ok (value, renamed).
Proof. intros Ha. unfold Joi.rename_step. cbn [Joi.from]. by rewrite Ha. Qed.

(** X8.  On find-providers the flag [num-providers] is an alias of
    [numProviders] that wins over it: when the query supplies the flag, the
    outcome of validation is that of the query in which [numProviders] holds
    the flag's value, whatever the query supplies for [numProviders]
    itself. *)
Theorem num_providers_overrides (raw : gmap string Value) (a b : Value) :
  raw !! "num-providers" = Some a ->
  a <> VUndefined ->
  Joi.validate validate_options findProvsResource_validate_query
    (<["numProviders" := b]> raw)
  = Joi.validate validate_options findProvsResource_validate_query
      (<["numProviders" := a]> (delete "num-providers" raw)).
Proof.
  intros Ha Hdef.
  set (left := <["numProviders" := b]> raw).
  set (right := <["numProviders" := a]> (delete "num-providers" raw)).
  assert (Hleft : left !! "num-providers" = Some a)
    by (unfold left; by rewrite lookup_insert_ne).
  assert (Hright : right !! "num-providers" = None)
    by (unfold right; rewrite lookup_insert_ne by done;
        apply lookup_delete_eq).
  assert (Hsame : delete "num-providers" (<["numProviders" := a]> left)
                  = right) by (unfold left, right; map_cases).
  assert (Hgoal : forall value_l value_r renamed,
             value_l !! "num-providers" = Some a ->
             value_r !! "num-providers" = None ->
             delete "num-providers" (<["numProviders" := a]> value_l)
               = value_r ->
             "numProviders" ∉ renamed ->
             exists renamed_l renamed_r,
               Joi.rename_step
                 {| Joi.from := "num-providers"; Joi.to := "numProviders";
                    Joi.options := {| Joi.override := true;
                                      Joi.ignoreUndefined := true |} |}
                 (value_l, renamed) = Ok (value_r, renamed_l)
               /\ Joi.rename_step
                    {| Joi.from := "num-providers";
                       Joi.to := "numProviders";
                       Joi.options := {| Joi.override := true;
                                         Joi.ignoreUndefined := true |} |}
                    (value_r, renamed) = Ok (value_r, renamed_r)).
  { intros value_l value_r renamed Hl Hr Heq Hnot.
    rewrite (rename_num_providers_supplied _ _ a Hl Hdef Hnot), Heq.
    rewrite rename_num_providers_absent by done.
    by do 2 eexists. }
  assert (Hundef : forall value : gmap string Value,
             value !! "arg" = Some VUndefined ->
             Joi.rename_step
               {| Joi.from := "arg"; Joi.to := "cid";
                  Joi.options := {| Joi.override := true;
                                    Joi.ignoreUndefined := true |} |}
               (value, ∅) = Ok (value, ∅)).
  { intros value Hv. unfold Joi.rename_step. cbn [Joi.from]. by rewrite Hv. }
  unfold Joi.validate.
  cbn [findProvsResource_validate_query Joi.rename Joi.keys Joi.object
       Joi.term_renames Joi.term_keys app Joi.rename_all].
  destruct (raw !! "arg") as [x|] eqn:Harg.
  - destruct (undefined_or_not x) as [->|Hx].
    + assert (Hl : left !! "arg" = Some VUndefined)
        by (unfold left; by rewrite lookup_insert_ne).
      assert (Hr : right !! "arg" = Some VUndefined)
        by (unfold right;
            by rewrite lookup_insert_ne, lookup_delete_ne).
      rewrite (Hundef left Hl), (Hundef right Hr). cbn [bindR].
      destruct (Hgoal left right ∅ Hleft Hright Hsame)
        as (rl & rr & -> & ->); [apply not_elem_of_empty|done].
    + assert (Hl : left !! "arg" = Some x)
        by (unfold left; by rewrite lookup_insert_ne).
      assert (Hr : right !! "arg" = Some x)
        by (unfold right;
            by rewrite lookup_insert_ne, lookup_delete_ne).
      rewrite (rename_arg_supplied "cid" left x ltac:(done) Hl Hx).
      rewrite (rename_arg_supplied "cid" right x ltac:(done) Hr Hx).
      cbn [bindR].
      edestruct (Hgoal (<["cid" := x]> (delete "arg" left))
                   (<["cid" := x]> (delete "arg" right)))
        as (rl & rr & -> & ->); [| | | |done].
      * by rewrite lookup_insert_ne, lookup_delete_ne.
      * by rewrite lookup_insert_ne, lookup_delete_ne.
      * unfold left, right. map_cases.
      * rewrite (right_id_L ∅ (∪)). by apply not_elem_of_singleton.
  - assert (Hl : left !! "arg" = None)
      by (unfold left; by rewrite lookup_insert_ne).
    assert (Hr : right !! "arg" = None)
      by (unfold right; by rewrite lookup_insert_ne, lookup_delete_ne).
    rewrite !rename_arg_absent by done. cbn [bindR].
    destruct (Hgoal left right ∅ Hleft Hright Hsame)
      as (rl & rr & -> & ->); [apply not_elem_of_empty|done].
Qed.

End MoreAliases.

Section MoreFindProvs.
Import Dht.
Context {PeerId Multiaddr Bytes G : Type}.
Context `{ToString PeerId} `{ToString Multiaddr} `{ToString Bytes}.
Context `{Joi.Coercions}.
Implicit Types (request : @Request PeerId Multiaddr Bytes G) (w : World).

(** X9.  A find-providers request that supplies neither [numProviders] nor
    the flag [num-providers] is validated with [numProviders] 20, and that
    is the number the engine is asked for. *)
Theorem findProvs_default_numProviders request w
    (validated : gmap string Value) :
  Joi.validate validate_options findProvsResource_validate_query
    (query request) = Ok validated ->
  query request !! "numProviders" = None ->
  query request !! "num-providers" = None ->
  get validated "numProviders" = VNum 20
  /\ snd (findProvsResource_source
            {| app_signal := app_signal request;
               server_app_ipfs := server_app_ipfs request;
               query := validated |} tt w)
     = w ++ [CallFindProvs (get validated "cid")
               {| numProviders := Some (VNum 20);
                  signal := app_signal request;
                  timeout := get validated "timeout" |}].
Proof.
  intros Hvalid HnumP Hnum.
  assert (Hdefault : get validated "numProviders" = VNum 20).
  { unfold Joi.validate in Hvalid.
    destruct (Joi.rename_all _ _) as [[value renamed]|e] eqn:Hren;
      [|discriminate].
    assert (Hvalue : value !! "numProviders" = None).
    { revert Hren.
      cbn [findProvsResource_validate_query Joi.rename Joi.keys Joi.object
           Joi.term_renames app Joi.rename_all].
      destruct (Joi.rename_step _ (query request, ∅))
        as [[value1 renamed1]|e] eqn:Hstep1; [|discriminate].
      cbn [bindR].
      rewrite rename_num_providers_absent
        by (by rewrite (rename_step_other _ _ _ _ _ _ Hstep1)).
      intros [= <- _].
      by rewrite (rename_step_other _ _ _ _ _ _ Hstep1). }
    cbn [bindR validate_options Joi.stripUnknown Joi.allowUnknown] in Hvalid.
    destruct (Joi.validate_keys _ value ∅) as [out|e] eqn:Hkeys;
      [|discriminate].
    cbn [bindR] in Hvalid.
    assert (out = validated) as <-
      by (by destruct (Joi.unknown_keys _ _); injection Hvalid).
    eapply (validate_keys_lookup _ _ _ _ "numProviders"
              (Joi.number .> Joi.integer .> Joi.default (VNum 20))) in Hkeys.
    - unfold get at 1 in Hkeys. rewrite Hvalue in Hkeys.
      cbn in Hkeys. by injection Hkeys as <-.
    - cbn.
      repeat (apply NoDup_cons_2;
              [repeat (apply not_elem_of_cons; split; [done|]);
               apply not_elem_of_nil|]).
      apply NoDup_nil_2.
    - cbn. apply elem_of_cons. right. apply elem_of_cons. by left. }
  split; [exact Hdefault|].
  unfold findProvsResource_source, bind, ipfs_dht_findProvs, ret.
  cbn [app_signal server_app_ipfs query snd]. by rewrite Hdefault.
Qed.

(** X10.  A find-providers or provide request whose content identifier the
    cid type rejects is answered with a bad request, and the engine is not
    called. *)
Theorem invalid_cid_rejected request w (s : string) :
  query request !! "arg" = Some (VStr s) ->
  Joi.toCID s = None ->
  Forall
    (fun resource =>
       exists message,
         serve resource request w
         = (Throw (Boomed (badRequest message)), w))
    [findProvsResource; provideResource].
Proof.
  intros Harg Hcid.
  assert (Hrename :
    Joi.rename_step
      {| Joi.from := "arg"; Joi.to := "cid";
         Joi.options := {| Joi.override := true;
                           Joi.ignoreUndefined := true |} |}
      (query request, ∅)
    = Ok (<["cid" := VStr s]> (delete "arg" (query request)), {["cid"]} ∪ ∅))
    by (by apply rename_arg_supplied).
  assert (Hfield : forall value : gmap string Value,
             value !! "cid" = Some (VStr s) ->
             Joi.validate_value (Joi.cid .> Joi.required) (get value "cid")
             = Throw "cid.base").
  { intros value Hv. unfold get. rewrite Hv. cbn. by rewrite Hcid. }
  repeat apply Forall_cons_2; try apply Forall_nil_2;
    apply serve_validation_failure with
      (err := {| Joi.path := "cid"; Joi.reason := "cid.base" |});
    unfold Joi.validate.
  - cbn [findProvsResource options_validate_query options_validate_options
         findProvsResource_validate_query Joi.rename Joi.keys Joi.object
         Joi.term_renames Joi.term_keys app Joi.rename_all].
    rewrite Hrename. cbn [bindR].
    match goal with
    | |- context [Joi.rename_step ?r ?st] =>
        destruct (Joi.rename_step r st) as [[value renamed]|e] eqn:Hstep
    end.
    + cbn [bindR Joi.rename_all Joi.validate_keys]. rewrite Hfield; [done|].
      rewrite (rename_step_other _ _ _ _ _ "cid" Hstep) by done.
      apply lookup_insert_eq.
    + exfalso. revert Hstep. unfold Joi.rename_step.
      cbn [Joi.from Joi.to Joi.options Joi.override Joi.ignoreUndefined].
      destruct (_ !! "num-providers") as [x|]; [|discriminate].
      rewrite bool_decide_eq_false_2
        by (rewrite (right_id_L ∅ (∪)); by apply not_elem_of_singleton).
      rewrite andb_false_r. by destruct x.
  - cbn [provideResource options_validate_query options_validate_options
         provideResource_validate_query Joi.rename Joi.keys Joi.object
         Joi.term_renames Joi.term_keys app Joi.rename_all].
    rewrite Hrename. cbn [bindR Joi.validate_keys].
    rewrite Hfield; [done|]. apply lookup_insert_eq.
Qed.

End MoreFindProvs.

(** ** Further properties of bootstrap reset *)

Section MoreReset.
Import Bootstrap.
Context {Store MA : Type}.
Variable repo : IPFSRepo Store.
Variable defaultConfig : unit -> gmap string Value.
Variable Multiaddr : Value -> Result Error MA.

(** Once the repository has handed out the document and accepted its
    replacement, the outcome of [reset] is that of parsing the template's
    list. *)
Lemma reset_after_replace options w (doc : gmap string Value) (s1 s2 : Store) :
  let opts := match options with VUndefined => VObj ∅ | _ => options end in
  let persisted :=
    set doc "Bootstrap" (get (defaultConfig tt) "Bootstrap") in
  config_getAll repo opts (store w) = (Ok doc, s1) ->
  config_replace repo persisted s1 = (Ok tt, s2) ->
  reset repo defaultConfig Multiaddr options w
  = (match value_map Multiaddr (get (defaultConfig tt) "Bootstrap") with
     | Ok peers => Ok {| Peers := peers |}
     | Throw err => Throw err
     end,
     mkWorld s2 (calls w ++ [GetAll opts; Replace persisted])).
Proof.
  intros opts persisted Hget Hrep.
  unfold reset, bind, repo_config_getAll, repo_config_replace, lift, ret.
  fold opts. rewrite Hget. cbn [store calls]. fold persisted. rewrite Hrep.
  rewrite <- app_assoc. cbn [app].
  change (value_map (fun ma => Multiaddr ma))
    with (value_map Multiaddr).
  by destruct (value_map Multiaddr _).
Qed.

(** X11.  A failure of the repository is thrown by [reset] as it is.  When
    the read fails, [replace] is never called; when the replace fails, no
    peer list is returned. *)
Theorem reset_repository_failure options w (err : Error) :
  let opts := match options with VUndefined => VObj ∅ | _ => options end in
  (forall s1,
     config_getAll repo opts (store w) = (Throw err, s1) ->
     reset repo defaultConfig Multiaddr options w
     = (Throw err, mkWorld s1 (calls w ++ [GetAll opts])))
  /\ (forall doc s1 s2,
        config_getAll repo opts (store w) = (Ok doc, s1) ->
        config_replace repo
          (set doc "Bootstrap" (get (defaultConfig tt) "Bootstrap")) s1
          = (Throw err, s2) ->
        reset repo defaultConfig Multiaddr options w
        = (Throw err,
           mkWorld s2
             (calls w ++
                [GetAll opts;
                 Replace (set doc "Bootstrap"
                            (get (defaultConfig tt) "Bootstrap"))]))).
Proof.
  intros opts. split.
  - intros s1 Hget.
    unfold reset, bind, repo_config_getAll. fold opts. by rewrite Hget.
  - intros doc s1 s2 Hget Hrep.
    unfold reset, bind, repo_config_getAll, repo_config_replace.
    fold opts. rewrite Hget. cbn [store calls]. rewrite Hrep.
    by rewrite <- app_assoc.
Qed.

(** X12.  The addresses are parsed after the document has been replaced:
    when [Multiaddr] rejects an entry of the template's list, [reset] throws
    that error, and the repository already holds the document with the new
    [Bootstrap] list. *)
Theorem reset_parse_failure_after_replace options w
    (doc : gmap string Value) (s1 s2 : Store) (err : Error) :
  let opts := match options with VUndefined => VObj ∅ | _ => options end in
  let persisted :=
    set doc "Bootstrap" (get (defaultConfig tt) "Bootstrap") in
  config_getAll repo opts (store w) = (Ok doc, s1) ->
  config_replace repo persisted s1 = (Ok tt, s2) ->
  value_map Multiaddr (get (defaultConfig tt) "Bootstrap") = Throw err ->
  reset repo defaultConfig Multiaddr options w
  = (Throw err, mkWorld s2 (calls w ++ [GetAll opts; Replace persisted])).
Proof.
  intros opts persisted Hget Hrep Hparse.
  rewrite (reset_after_replace options w doc s1 s2 Hget Hrep).
  by rewrite Hparse.
Qed.

(** X13.  Resetting twice is resetting once: on a repository that hands out
    at the second read the document the first reset replaced, the second
    reset replaces it by that same document and returns the same peers. *)
Theorem reset_twice options1 options2 w (doc : gmap string Value)
    (s1 s2 s3 s4 : Store) (peers : list MA) :
  let opts1 := match options1 with VUndefined => VObj ∅ | _ => options1 end in
  let opts2 := match options2 with VUndefined => VObj ∅ | _ => options2 end in
  let persisted :=
    set doc "Bootstrap" (get (defaultConfig tt) "Bootstrap") in
  config_getAll repo opts1 (store w) = (Ok doc, s1) ->
  config_replace repo persisted s1 = (Ok tt, s2) ->
  config_getAll repo opts2 s2 = (Ok persisted, s3) ->
  config_replace repo persisted s3 = (Ok tt, s4) ->
  value_map Multiaddr (get (defaultConfig tt) "Bootstrap") = Ok peers ->
  bind (reset repo defaultConfig Multiaddr options1)
       (fun _ => reset repo defaultConfig Multiaddr options2) w
  = (Ok {| Peers := peers |},
     mkWorld s4
       (calls w ++ [GetAll opts1; Replace persisted;
                    GetAll opts2; Replace persisted])).
Proof.
  intros opts1 opts2 persisted Hget1 Hrep1 Hget2 Hrep2 Hparse.
  unfold bind at 1.
  rewrite (reset_after_replace options1 w doc s1 s2 Hget1 Hrep1), Hparse.
  assert (Hfix : set persisted "Bootstrap"
                   (get (defaultConfig tt) "Bootstrap") = persisted)
    by apply insert_insert_eq.
  rewrite (reset_after_replace options2 _ persisted s3 s4);
    cbn [store calls]; fold opts2; rewrite ?Hfix; try done.
  rewrite Hparse. by rewrite <- app_assoc.
Qed.

End MoreReset.

(** ** The further properties on the stub engine and repositories *)

Example query_two_peers :
  Dht.stream_envelopes 5
    (Dht.queryResource_source
       (Sample.request (Sample.engine [Sample.peerA; Sample.peerB] None)
          Sample.never [("peerId", VStr "QmTarget")])
       tt [])
  = [VObj {[ "ID" := VStr "QmPeerA" ]}; VObj {[ "ID" := VStr "QmPeerB" ]}].
Proof. vm_compute. reflexivity. Qed.

Lemma get_value_envelope_witness :
  let request :=
    Sample.request (Sample.engine [] None) Sample.never
      [("arg", VStr "key"); ("timeout", VStr "1s")] in
  let validated : gmap string Value :=
    {[ "buffer" := VBuf "key"; "timeout" := VNum 1000 ]} in
  let options :=
    {| Dht.numProviders := None; Dht.signal := Sample.never;
       Dht.timeout := VNum 1000 |} in
  Joi.validate Dht.validate_options Dht.getResource_validate_query
    (Dht.query request) = Ok validated
  /\ Dht.serve Dht.getResource request []
     = (Ok (Dht.Json (VObj {[ "Extra" := VStr "value"; "Type" := VNum 5 ]})),
        [Dht.CallGet (VBuf "key") options]).
Proof.
  intros request validated options.
  assert (Hvalid : Joi.validate Dht.validate_options
                     Dht.getResource_validate_query (Dht.query request)
                   = Ok validated) by (vm_compute; reflexivity).
  split; [exact Hvalid|].
  exact (get_value_envelope request [] validated Hvalid).
Defined.

Lemma put_reaches_engine_witness :
  let request :=
    Sample.request (Sample.engine [] None) Sample.never
      [("arg", VArr [VStr "key"; VStr "value"]); ("timeout", VStr "1s")] in
  let options :=
    {| Dht.numProviders := None; Dht.signal := Sample.never;
       Dht.timeout := VNum 1000 |} in
  (get (Dht.query request) "arg" = VArr [VStr "key"; VStr "value"]
   /\ Joi.validate_value Joi.timeout (get (Dht.query request) "timeout")
      = Ok (VNum 1000))
  /\ Dht.serve Dht.putResource request []
     = (Ok Dht.Empty, [Dht.CallPut (VBuf "key") (VBuf "value") options]).
Proof.
  intros request options.
  split; [split; reflexivity|].
  exact (put_reaches_engine request [] "key" "value" (VNum 1000)
           eq_refl eq_refl).
Defined.

Lemma unknown_field_ignored_witness :
  let raw : gmap string Value := {[ "arg" := VStr "QmPeerA" ]} in
  ("stream-channels" <> "arg" /\ "stream-channels" <> "num-providers"
   /\ "stream-channels" ∉
        (Joi.term_keys Dht.findPeerResource_validate_query).*1)
  /\ Joi.validate Dht.validate_options Dht.findPeerResource_validate_query
       (<["stream-channels" := VStr "true"]> raw)
     = Ok {[ "peerId" := VStr "QmPeerA" ]}.
Proof.
  intros raw.
  assert (Hk : "stream-channels" ∉
                 (Joi.term_keys Dht.findPeerResource_validate_query).*1).
  { cbn. repeat (apply not_elem_of_cons; split; [done|]).
    apply not_elem_of_nil. }
  split; [split; [done|split; [done|exact Hk]]|].
  pose proof (unknown_field_ignored raw "stream-channels" (VStr "true")
                ltac:(done) ltac:(done)) as Hall.
  apply Forall_cons_1 in Hall as [Hfind _].
  rewrite (Hfind Hk). vm_compute. reflexivity.
Defined.

Lemma validated_keys_declared_witness :
  let raw : gmap string Value :=
    {[ "arg" := VStr "QmPeerA"; "verbose" := VBool true ]} in
  let validated : gmap string Value := {[ "peerId" := VStr "QmPeerA" ]} in
  (Joi.validate Dht.validate_options Dht.findPeerResource_validate_query raw
   = Ok validated
   /\ is_Some (validated !! "peerId"))
  /\ "peerId" ∈ (Joi.term_keys Dht.findPeerResource_validate_query).*1.
Proof.
  intros raw validated.
  assert (Hvalid : Joi.validate Dht.validate_options
                     Dht.findPeerResource_validate_query raw = Ok validated)
    by (vm_compute; reflexivity).
  assert (Hsome : is_Some (validated !! "peerId")) by (by eexists).
  split; [by split|].
  exact (validated_keys_declared _ raw validated "peerId" Hvalid Hsome).
Defined.

Lemma required_field_missing_witness :
  let request :=
    Sample.request (Sample.engine [] None) Sample.never
      [("timeout", VStr "1s")] in
  (Dht.query request !! "arg" = None /\ Dht.query request !! "peerId" = None)
  /\ exists message,
       Dht.serve Dht.findPeerResource request []
       = (Throw (Dht.Boomed (Dht.badRequest message)), []).
Proof.
  intros request.
  split; [split; reflexivity|].
  pose proof (required_field_missing request [] eq_refl) as Hall.
  apply Forall_cons_1 in Hall as [Hfind _].
  exact (Hfind eq_refl).
Defined.

Lemma num_providers_overrides_witness :
  let raw : gmap string Value :=
    {[ "arg" := VStr "QmContent"; "num-providers" := VStr "5" ]} in
  (raw !! "num-providers" = Some (VStr "5") /\ VStr "5" <> VUndefined)
  /\ Joi.validate Dht.validate_options Dht.findProvsResource_validate_query
       (<["numProviders" := VNum 7]> raw)
     = Ok {[ "cid" := VCid "QmContent"; "numProviders" := VNum 5 ]}.
Proof.
  intros raw.
  split; [split; [reflexivity|discriminate]|].
  rewrite (num_providers_overrides raw (VStr "5") (VNum 7) eq_refl
             ltac:(discriminate)).
  vm_compute. reflexivity.
Defined.

Lemma findProvs_default_numProviders_witness :
  let request :=
    Sample.request (Sample.engine [Sample.peerA] None) Sample.never
      [("arg", VStr "QmContent")] in
  let validated : gmap string Value :=
    {[ "cid" := VCid "QmContent"; "numProviders" := VNum 20 ]} in
  (Joi.validate Dht.validate_options Dht.findProvsResource_validate_query
     (Dht.query request) = Ok validated
   /\ Dht.query request !! "numProviders" = None
   /\ Dht.query request !! "num-providers" = None)
  /\ get validated "numProviders" = VNum 20.
Proof.
  intros request validated.
  assert (Hvalid : Joi.validate Dht.validate_options
                     Dht.findProvsResource_validate_query (Dht.query request)
                   = Ok validated) by (vm_compute; reflexivity).
  split; [split; [exact Hvalid|split; reflexivity]|].
  exact (proj1 (findProvs_default_numProviders request [] validated Hvalid
                  eq_refl eq_refl)).
Defined.

Lemma invalid_cid_rejected_witness :
  let request :=
    Sample.request (Sample.engine [] None) Sample.never
      [("arg", VStr "not-a-cid")] in
  (Dht.query request !! "arg" = Some (VStr "not-a-cid")
   /\ Joi.toCID "not-a-cid" = None)
  /\ Forall
       (fun resource =>
          exists message,
            Dht.serve resource request []
            = (Throw (Dht.Boomed (Dht.badRequest message)), []))
       [Dht.findProvsResource; Dht.provideResource].
Proof.
  intros request.
  split; [split; reflexivity|].
  exact (invalid_cid_rejected request [] "not-a-cid" eq_refl eq_refl).
Defined.

Lemma reset_repository_failure_witness :
  Bootstrap.reset (Sample.failingRepo true) Sample.defaultConfig
    Sample.Multiaddr VUndefined (Bootstrap.mkWorld Sample.docAB [])
  = (Throw Sample.failure,
     Bootstrap.mkWorld Sample.docAB [Bootstrap.GetAll (VObj ∅)])
  /\ fst (Bootstrap.reset (Sample.failingRepo false) Sample.defaultConfig
            Sample.Multiaddr VUndefined (Bootstrap.mkWorld Sample.docAB []))
     = Throw Sample.failure.
Proof.
  split.
  - exact (proj1 (reset_repository_failure (Sample.failingRepo true)
                    Sample.defaultConfig Sample.Multiaddr VUndefined
                    (Bootstrap.mkWorld Sample.docAB []) Sample.failure)
             Sample.docAB eq_refl).
  - exact (f_equal fst
             (proj2 (reset_repository_failure (Sample.failingRepo false)
                       Sample.defaultConfig Sample.Multiaddr VUndefined
                       (Bootstrap.mkWorld Sample.docAB []) Sample.failure)
                Sample.docAB Sample.docAB Sample.docAB eq_refl eq_refl)).
Defined.

Lemma reset_parse_failure_after_replace_witness :
  let persisted :=
    <["Bootstrap" := VArr [VStr "/ip4/10.0.0.1/tcp/4001"; VStr "nowhere"]]>
      Sample.docAB in
  value_map Sample.Multiaddr (get (Sample.brokenConfig tt) "Bootstrap")
    = Throw (mkError "Error" "invalid multiaddr" None)
  /\ Bootstrap.reset Bootstrap.memRepo Sample.brokenConfig Sample.Multiaddr
       VUndefined (Bootstrap.mkWorld Sample.docAB [])
     = (Throw (mkError "Error" "invalid multiaddr" None),
        Bootstrap.mkWorld persisted
          [Bootstrap.GetAll (VObj ∅); Bootstrap.Replace persisted]).
Proof.
  intros persisted.
  split; [reflexivity|].
  exact (reset_parse_failure_after_replace Bootstrap.memRepo
           Sample.brokenConfig Sample.Multiaddr VUndefined
           (Bootstrap.mkWorld Sample.docAB []) Sample.docAB Sample.docAB
           persisted (mkError "Error" "invalid multiaddr" None)
           eq_refl eq_refl eq_refl).
Defined.

Lemma reset_twice_witness :
  let persisted :=
    <["Bootstrap" := VArr Sample.bootstrapList]> Sample.docAB in
  let peers :=
    ["/ip4/104.131.131.82/tcp/4001/p2p/QmaCpDMGvV2BGHeYERUEnRQAwe3N8SzbUtfsmvsqQLuvuJ";
     "/dnsaddr/bootstrap.libp2p.io/p2p/QmNnooDu7bfjPFoTZYxMNLWUQJyrVwtbZg5gBMjTezGAJN"] in
  value_map Sample.Multiaddr (get (Sample.defaultConfig tt) "Bootstrap")
    = Ok peers
  /\ bind (Bootstrap.reset Bootstrap.memRepo Sample.defaultConfig
             Sample.Multiaddr VUndefined)
          (fun _ => Bootstrap.reset Bootstrap.memRepo Sample.defaultConfig
                      Sample.Multiaddr VUndefined)
          (Bootstrap.mkWorld Sample.docAB [])
     = (Ok {| Bootstrap.Peers := peers |},
        Bootstrap.mkWorld persisted
          [Bootstrap.GetAll (VObj ∅); Bootstrap.Replace persisted;
           Bootstrap.GetAll (VObj ∅); Bootstrap.Replace persisted]).
Proof.
  intros persisted peers.
  split; [reflexivity|].
  exact (reset_twice Bootstrap.memRepo Sample.defaultConfig Sample.Multiaddr
           VUndefined VUndefined (Bootstrap.mkWorld Sample.docAB [])
           Sample.docAB Sample.docAB persisted persisted persisted peers
           eq_refl eq_refl eq_refl eq_refl eq_refl).
Defined.
